(** * Timeline Monitor: a shallow embedding of [timeline_monitor.h]

    The header defines four classes: [TimelineElem] (one BEGIN or END
    marker), [Timeline] (the list of markers of one chain, the stack depth
    and the id issuer), [TimelineDump] (a renderer) and [TimelineMonitor]
    (the scope guard behind the [T_MONITOR_*] macros).

    Conventions of the embedding:
    - [uint32_t] and [uint64_t] are [Z] with the wrap-around written out
      ([wrap32], [wrap64]);
    - [std::list<TimelineElem>] is [list TimelineElem.t];
    - [std::unordered_map<uint64_t, TimelineElem*>] is [gmap Z TimelineElem.t]
      (the elements pointed to are never modified);
    - [std::chrono::system_clock::time_point] is the signed tick count since
      the epoch, and every read of [system_clock::now()] is explicit;
    - ids come from [Timeline::issueId] (the header with [getDepth] and
      [issueId], which the test program needs), except in [SrcHeader], the
      header of [src/], where they come from a counter of the thread;
    - an operation whose behaviour is undefined in C++ (dereferencing
      [begin()] of an empty list) returns [None]. *)

From Stdlib Require Import ZArith Lia Ascii String.
From stdpp Require Import base option list gmap strings pretty.

Local Open Scope Z_scope.

(** ** Machine integers and the clock *)

Definition wrap32 (z : Z) : Z := z mod 2 ^ 32.
Definition wrap64 (z : Z) : Z := z mod 2 ^ 64.

Definition is_uint32 (z : Z) : Prop := 0 <= z < 2 ^ 32.
Definition is_uint64 (z : Z) : Prop := 0 <= z < 2 ^ 64.

(** [system_clock::time_point]: ticks since the epoch.  The tick length is
    the implementation's; libstdc++ counts nanoseconds. *)
Definition time_point : Type := Z.
Definition ticks_per_us : Z := 1000.

(** ** class TimelineElem *)

Module TimelineElem.

Inductive Type_ : Set := BEGIN | END.

Record t : Type := make {
  timelineName : string;
  type : Type_;
  id : Z;
  depth : Z;
  timestamp : time_point
}.

Definition getName (e : t) : string := timelineName e.
Definition getId (e : t) : Z := id e.
Definition getType (e : t) : Type_ := type e.
Definition getTimestamp (e : t) : time_point := timestamp e.

(** [duration_cast<microseconds>] truncates towards zero; [count()] is a
    signed 64-bit number that the return type converts to [uint64_t]. *)
Definition getEpochUs_of (tp : time_point) : Z := wrap64 (Z.quot tp ticks_per_us).
Definition getEpochUs (e : t) : Z := getEpochUs_of (timestamp e).
Definition getDepth (e : t) : Z := depth e.

Definition Type_eqb (a b : Type_) : bool :=
  match a, b with
  | BEGIN, BEGIN | END, END => true
  | _, _ => false
  end.

End TimelineElem.

(** ** class Timeline *)

Module Timeline.

Import TimelineElem.

Record t : Type := make {
  eventIdCounter : Z;
  elems : list TimelineElem.t;
  lastDepth : Z
}.

(** [Timeline() : eventIdCounter(0), lastDepth(0) {}] *)
Definition new : t := make 0 [] 0.

(** [elems.push_back(TimelineElem(name, BEGIN, id, lastDepth++))] *)
Definition pushBegin (tl : t) (name : string) (id : Z) (now : time_point) : t :=
  {| eventIdCounter := eventIdCounter tl;
     elems := elems tl ++ [TimelineElem.make name BEGIN id (lastDepth tl) now];
     lastDepth := wrap32 (lastDepth tl + 1) |}.

Definition clear (tl : t) : t :=
  {| eventIdCounter := eventIdCounter tl;
     elems := [];
     lastDepth := lastDepth tl |}.

(** [TimelineElem& first_elem = *elems.begin();] is undefined on an empty
    list: [None]. *)
Definition clearIfNecessary (tl : t) (id : Z) : option t :=
  match elems tl with
  | [] => None
  | first_elem :: _ =>
      if getId first_elem =? id then Some (clear tl) else Some tl
  end.

(** [elems.push_back(TimelineElem(name, END, id, --lastDepth));
     clearIfNecessary(id);] *)
Definition pushEnd (tl : t) (name : string) (id : Z) (now : time_point)
  : option t :=
  let d := wrap32 (lastDepth tl - 1) in
  let tl1 := {| eventIdCounter := eventIdCounter tl;
                elems := elems tl ++ [TimelineElem.make name END id d now];
                lastDepth := d |} in
  clearIfNecessary tl1 id.

(** [elems.push_back(...); Timeline ret = *this; clearIfNecessary(id);
     return ret;]  The result is the pair (returned copy, source after). *)
Definition pushEndAndExport (tl : t) (name : string) (id : Z) (now : time_point)
  : option (t * t) :=
  let d := wrap32 (lastDepth tl - 1) in
  let tl1 := {| eventIdCounter := eventIdCounter tl;
                elems := elems tl ++ [TimelineElem.make name END id d now];
                lastDepth := d |} in
  let ret := tl1 in
  tl2 ← clearIfNecessary tl1 id;
  Some (ret, tl2).

Definition getElems (tl : t) : list TimelineElem.t := elems tl.
Definition getDepth (tl : t) : Z := lastDepth tl.

(** [return eventIdCounter++;]: the issued id and the timeline after. *)
Definition issueId (tl : t) : Z * t :=
  (eventIdCounter tl,
   {| eventIdCounter := wrap64 (eventIdCounter tl + 1);
      elems := elems tl;
      lastDepth := lastDepth tl |}).

(** The values a [Timeline] object can hold: both counters in range. *)
Definition wf (tl : t) : Prop :=
  is_uint64 (eventIdCounter tl) /\ is_uint32 (lastDepth tl).

End Timeline.

(** ** class TimelineDump *)

Module TimelineDump.

Import TimelineElem.

(** [std::string(n, ' ')] *)
Definition spaces (n : Z) : string :=
  string_of_list_ascii (replicate (Z.to_nat n) " "%char).

(** [operator<<] on a [uint64_t]: decimal digits. *)
Definition show_u64 (z : Z) : string := pretty (Z.to_N z).

(** [std::endl] *)
Definition endl : string := String "010"%char EmptyString.

(** [unordered_map::insert] keeps the mapping of a key already present. *)
Definition map_insert (k : Z) (v : TimelineElem.t) (m : gmap Z TimelineElem.t)
  : gmap Z TimelineElem.t :=
  match m !! k with
  | Some _ => m
  | None => <[k := v]> m
  end.

(** The locals of [toString] that live across iterations. *)
Record locals : Type := mkLocals {
  ret : string;
  begin_elems : gmap Z TimelineElem.t;
  need_endl : bool
}.

(** [if (need_endl) { ret << std::endl; need_endl = false; }] *)
Definition flush_endl (st : locals) : string :=
  if need_endl st then ret st +:+ endl else ret st.

(** One iteration of [for (auto& entry: elems)]. *)
Definition loop_body (st : locals) (cur_elem : TimelineElem.t) : locals :=
  match getType cur_elem with
  | BEGIN =>
      let m := map_insert (getId cur_elem) cur_elem (begin_elems st) in
      {| ret := flush_endl st
                 +:+ spaces (getDepth cur_elem)
                 +:+ getName cur_elem +:+ ", "
                 +:+ show_u64 (getEpochUs cur_elem);
         begin_elems := m;
         need_endl := true |}
  | END =>
      match begin_elems st !! getId cur_elem with
      | None => st (* Something went wrong, ignore it. *)
      | Some begin_elem =>
          {| ret := flush_endl st
                     +:+ spaces (getDepth begin_elem)
                     +:+ getName begin_elem +:+ ", "
                     +:+ show_u64 (getEpochUs cur_elem) +:+ ", "
                     +:+ show_u64 (wrap64 (getEpochUs cur_elem
                                           - getEpochUs begin_elem));
             begin_elems := begin_elems st;
             need_endl := true |}
      end
  end.

Definition toString (src : Timeline.t) : string :=
  let elems := Timeline.getElems src in
  ret (foldl loop_body (mkLocals EmptyString ∅ false) elems).

End TimelineDump.

(** ** The running thread: the referenced timeline and the system clock

    A [TimelineMonitor] holds a reference [timelineRef] to a [Timeline]
    ([thread_events] or a custom one); all guards of one chain refer to the
    same object, which is the [timelineRef] of the state below.  The clock is
    the sequence of values that successive calls of [system_clock::now()]
    return. *)

Module Run.

Record World : Type := mkWorld {
  timelineRef : Timeline.t;
  clock : nat -> time_point;
  clock_reads : nat
}.

Definition M (A : Type) : Type := World -> option (A * World).

#[global] Instance M_ret : MRet M := fun A a w => Some (a, w).
#[global] Instance M_bind : MBind M := fun A B f m w =>
  match m w with
  | Some (a, w') => f a w'
  | None => None
  end.

Definition system_clock_now : M time_point := fun w =>
  Some (clock w (clock_reads w),
        mkWorld (timelineRef w) (clock w) (S (clock_reads w))).

Definition get_timeline : M Timeline.t := fun w => Some (timelineRef w, w).

Definition put_timeline (tl : Timeline.t) : M unit := fun w =>
  Some (tt, mkWorld tl (clock w) (clock_reads w)).

(** Lift a result that is [None] when the C++ behaviour is undefined. *)
Definition defined {A : Type} (o : option A) : M A := fun w =>
  match o with
  | Some a => Some (a, w)
  | None => None
  end.

(** [for (size_t ii = 0; ii < n; ++ii) body] *)
Fixpoint for_loop (n : nat) (body : M unit) : M unit :=
  match n with
  | O => mret tt
  | S k => body ;; for_loop k body
  end.

End Run.

(** ** class TimelineMonitor *)

Module TimelineMonitor.

Import Run.

Record t : Type := make {
  myName : string;
  myId : Z;
  done : bool
}.

(** Both constructors: [myId(timelineRef.issueId()), done(false)] and then
    [timelineRef.pushBegin(myName, myId)]. *)
Definition new (name : string) : M t :=
  tl ← get_timeline;
  let '(i, tl1) := Timeline.issueId tl in
  now ← system_clock_now;
  put_timeline (Timeline.pushBegin tl1 name i now) ;;
  mret {| myName := name; myId := i; done := false |}.

(** [~TimelineMonitor()]; the result is the guard's last state. *)
Definition destroy (m : t) : M t :=
  if done m then mret m
  else
    tl ← get_timeline;
    now ← system_clock_now;
    tl' ← defined (Timeline.pushEnd tl (myName m) (myId m) now);
    put_timeline tl' ;;
    mret {| myName := myName m; myId := myId m; done := true |}.

(** [Timeline ret = timelineRef.pushEndAndExport(myName, myId);
     done = true; return ret;] *)
Definition exportTimeline (m : t) : M (Timeline.t * t) :=
  tl ← get_timeline;
  now ← system_clock_now;
  '(ret, tl') ← defined (Timeline.pushEndAndExport tl (myName m) (myId m) now);
  put_timeline tl' ;;
  mret (ret, {| myName := myName m; myId := myId m; done := true |}).

(** [getElapsedUs() const] *)
Definition getElapsedUs (m : t) : M Z :=
  tl ← get_timeline;
  match Timeline.getElems tl with
  | [] => mret 0
  | te :: _ =>
      now ← system_clock_now;
      mret (wrap64 (TimelineElem.getEpochUs_of now - TimelineElem.getEpochUs te))
  end.

End TimelineMonitor.

(** ** The scenarios of the test program

    Inside a lambda [__func__] is ["operator()"].  [T_MONITOR_FUNC()] and
    [T_MONITOR_BLOCK(name)] declare a guard that is destroyed at the end of
    the enclosing block; [T_MONITOR_EXPORT()] is [exportTimeline()] on it. *)

Module HierarchicalTest.

Import Run.

Definition func_1 (A : nat) : M unit :=
  mon ← TimelineMonitor.new "operator()";
  for_loop A (blk ← TimelineMonitor.new "func_1_inner";
              TimelineMonitor.destroy blk ;; mret tt) ;;
  TimelineMonitor.destroy mon ;;
  mret tt.

Definition func_2 (A B : nat) : M Timeline.t :=
  mon ← TimelineMonitor.new "operator()";
  for_loop B (func_1 A) ;;
  '(ret, mon) ← TimelineMonitor.exportTimeline mon;
  TimelineMonitor.destroy mon ;;
  mret ret.

(** [timeline_monitor::Timeline ret = func_2();] *)
Definition hierarchical_test (A B : nat) : M Timeline.t := func_2 A B.

End HierarchicalTest.

Module ExportInTheMiddleTest.

Import Run.

(** The lambdas capture the local [ret] by reference: it is threaded. *)
Definition func_1 (do_middle_export : bool) (ret : Timeline.t) : M Timeline.t :=
  mon ← TimelineMonitor.new "operator()";
  blk ← TimelineMonitor.new "func_1_inner";
  TimelineMonitor.destroy blk ;;
  '(ret, mon) ← (if do_middle_export
                 then TimelineMonitor.exportTimeline mon
                 else mret (ret, mon));
  TimelineMonitor.destroy mon ;;
  mret ret.

Definition func_2 (do_middle_export : bool) (ret : Timeline.t) : M Timeline.t :=
  mon ← TimelineMonitor.new "operator()";
  ret ← func_1 do_middle_export ret;
  '(ret, mon) ← (if negb do_middle_export
                 then TimelineMonitor.exportTimeline mon
                 else mret (ret, mon));
  TimelineMonitor.destroy mon ;;
  mret ret.

(** The values of [ret] read after [func_2(true)] and after [func_2(false)]. *)
Definition export_in_the_middle_test : M (Timeline.t * Timeline.t) :=
  let ret := Timeline.new in
  ret1 ← func_2 true ret;
  ret2 ← func_2 false ret1;
  mret (ret1, ret2).

End ExportInTheMiddleTest.

(** ** Sequences of [pushBegin]/[pushEnd] calls on one timeline *)

Module Nesting.

Inductive op : Type :=
| OpBegin (name : string) (id : Z) (now : time_point)
| OpEnd (name : string) (id : Z) (now : time_point).

Definition step (tl : Timeline.t) (o : op) : option Timeline.t :=
  match o with
  | OpBegin name id now => Some (Timeline.pushBegin tl name id now)
  | OpEnd name id now => Timeline.pushEnd tl name id now
  end.

Fixpoint exec (ops : list op) (tl : Timeline.t) : option Timeline.t :=
  match ops with
  | [] => Some tl
  | o :: rest => tl' ← step tl o; exec rest tl'
  end.

(** Every [OpEnd] closes the most recently opened [OpBegin] that is still
    open, with that [OpBegin]'s id. *)
Inductive well_nested : list op -> Prop :=
| wn_nil : well_nested []
| wn_scope name name' id t_begin t_end body rest :
    well_nested body ->
    well_nested rest ->
    well_nested (OpBegin name id t_begin :: body ++ OpEnd name' id t_end :: rest).

End Nesting.

(** ** What the rendered text consists of

    The text that [TimelineDump.toString] is compared with: the lines that
    the events contribute one by one, joined by line ends. *)

Module Rendered.

Import TimelineElem.

Definition is_begin_of (i : Z) (b : TimelineElem.t) : bool :=
  Type_eqb (getType b) BEGIN && (getId b =? i).

(** The first Begin event with id [i] among [earlier]. *)
Definition first_begin (earlier : list TimelineElem.t) (i : Z)
  : option TimelineElem.t :=
  List.find (is_begin_of i) earlier.

(** The line of one event, given the events before it; [None] for an End
    event without a Begin event of its id before it. *)
Definition line (earlier : list TimelineElem.t) (e : TimelineElem.t)
  : option string :=
  match getType e with
  | BEGIN =>
      Some (TimelineDump.spaces (getDepth e) +:+ getName e +:+ ", "
            +:+ TimelineDump.show_u64 (getEpochUs e))
  | END =>
      b ← first_begin earlier (getId e);
      Some (TimelineDump.spaces (getDepth b) +:+ getName b +:+ ", "
            +:+ TimelineDump.show_u64 (getEpochUs e) +:+ ", "
            +:+ TimelineDump.show_u64 (wrap64 (getEpochUs e - getEpochUs b)))
  end.

(** An End event with no Begin event of its id before it. *)
Definition orphan_end (earlier : list TimelineElem.t) (e : TimelineElem.t)
  : Prop :=
  getType e = END
  /\ forall b, b ∈ earlier -> getType b = BEGIN -> getId b <> getId e.

Fixpoint lines (earlier l : list TimelineElem.t) : list string :=
  match l with
  | [] => []
  | e :: rest => option_list (line earlier e) ++ lines (earlier ++ [e]) rest
  end.

(** Lines separated by [std::endl], none after the last. *)
Fixpoint join_endl (ls : list string) : string :=
  match ls with
  | [] => EmptyString
  | [x] => x
  | x :: rest => x +:+ TimelineDump.endl +:+ join_endl rest
  end.

(** What the locals of [toString] hold after the events [done]. *)
Definition dump_inv (done : list TimelineElem.t) (st : TimelineDump.locals)
  : Prop :=
  TimelineDump.ret st = join_endl (lines [] done)
  /\ TimelineDump.need_endl st
     = match lines [] done with [] => false | _ :: _ => true end
  /\ forall i, TimelineDump.begin_elems st !! i = first_begin done i.

End Rendered.

(** ** The state of the bound timeline while a chain is open *)

Module Chain.

(** The outermost Begin event, with id [c0], is the first stored event;
    [n] events are stored, [k] ids have been issued since [c0], and the
    depth counter is [d]. *)
Definition inside (c0 : Z) (k n : nat) (d : Z) (w : Run.World) : Prop :=
  let tl := Run.timelineRef w in
  TimelineElem.getId <$> head (Timeline.elems tl) = Some c0
  /\ length (Timeline.elems tl) = n
  /\ Timeline.eventIdCounter tl = wrap64 (c0 + Z.of_nat k)
  /\ Timeline.lastDepth tl = d.

(** No chain is open: nothing stored, depth counter 0. *)
Definition idle (w : Run.World) : Prop :=
  let tl := Run.timelineRef w in
  Timeline.elems tl = []
  /\ Timeline.lastDepth tl = 0
  /\ is_uint64 (Timeline.eventIdCounter tl).

End Chain.

(** ** Counting the calls of a sequence *)

Module Ops.

Import Nesting.

Definition op_name (o : op) : string :=
  match o with OpBegin name _ _ | OpEnd name _ _ => name end.

Definition op_id (o : op) : Z :=
  match o with OpBegin _ id _ | OpEnd _ id _ => id end.

Definition op_time (o : op) : time_point :=
  match o with OpBegin _ _ now | OpEnd _ _ now => now end.

Definition op_type (o : op) : TimelineElem.Type_ :=
  match o with
  | OpBegin _ _ _ => TimelineElem.BEGIN
  | OpEnd _ _ _ => TimelineElem.END
  end.

(** Calls of [pushBegin] minus calls of [pushEnd]. *)
Fixpoint net (ops : list op) : Z :=
  match ops with
  | [] => 0
  | OpBegin _ _ _ :: rest => 1 + net rest
  | OpEnd _ _ _ :: rest => net rest - 1
  end.

(** [o] is a [pushEnd] with the id [f]. *)
Definition closes (f : Z) (o : op) : bool :=
  match o with
  | OpBegin _ _ _ => false
  | OpEnd _ id _ => id =? f
  end.

Definition is_end (o : op) : bool :=
  match o with
  | OpBegin _ _ _ => false
  | OpEnd _ _ _ => true
  end.

(** The event [e] is what the call [o] appends, up to its depth. *)
Definition records (e : TimelineElem.t) (o : op) : Prop :=
  TimelineElem.getName e = op_name o
  /\ TimelineElem.getType e = op_type o
  /\ TimelineElem.getId e = op_id o
  /\ TimelineElem.getTimestamp e = op_time o.

End Ops.

(** ** The quick-start example

    [func_a], [func_b] and [func_c] are scopes on the thread's timeline.
    The sleeps only let the clock advance.  The values sent to [std::cout]
    are returned. *)

Module QuickStart.

Import Run.

(** Run [m] with the guards bound to [tl]; the result comes with the final
    value of [tl], and the timeline bound before is bound again. *)
Definition on_timeline {A : Type} (tl : Timeline.t) (m : M A)
  : M (A * Timeline.t) := fun w =>
  match m (mkWorld tl (clock w) (clock_reads w)) with
  | Some (a, w') =>
      Some ((a, timelineRef w'),
            mkWorld (timelineRef w) (clock w') (clock_reads w'))
  | None => None
  end.

(** [func_a()], [func_b()], [func_c()]: scopes on the thread's timeline;
    [func_c] returns the elapsed time and the dump it prints. *)
Definition func_a : M unit :=
  mon ← TimelineMonitor.new "func_a";
  for_loop 2 (blk ← TimelineMonitor.new "func_a_inner";
              TimelineMonitor.destroy blk ;; mret tt) ;;
  TimelineMonitor.destroy mon ;;
  mret tt.

Definition func_b : M unit :=
  mon ← TimelineMonitor.new "func_b";
  for_loop 2 func_a ;;
  TimelineMonitor.destroy mon ;;
  mret tt.

Definition func_c : M (Z * string) :=
  mon ← TimelineMonitor.new "func_c";
  for_loop 3 func_b ;;
  elapsed ← TimelineMonitor.getElapsedUs mon;
  '(exported, mon) ← TimelineMonitor.exportTimeline mon;
  let dump := TimelineDump.toString exported in
  TimelineMonitor.destroy mon ;;
  mret (elapsed, dump).

End QuickStart.

(** ** The header in [src/] and the hand-off of the quick start

    [src/timeline_monitor.h], the header that the build puts first on the
    include path of the quick-start example, issues ids from a counter of
    the running thread, [static thread_local uint64_t event_id_counter(1)],
    and not from the timeline: both constructors have
    [myId(event_id_counter++)].  Its [Timeline] has no id issuer (the field
    [eventIdCounter] of [Timeline.t] is carried along, never read or
    written); all other members are the same.  The counter of the running
    thread is passed explicitly. *)

Module SrcHeader.

Import Run.

(** The value of [event_id_counter] when a thread first uses it. *)
Definition event_id_counter_init : Z := 1.

(** Both constructors: the guard and the thread's counter after. *)
Definition new (name : string) (event_id_counter : Z)
  : M (TimelineMonitor.t * Z) :=
  let i := event_id_counter in
  tl ← get_timeline;
  now ← system_clock_now;
  put_timeline (Timeline.pushBegin tl name i now) ;;
  mret (TimelineMonitor.make name i false, wrap64 (event_id_counter + 1)).

(** [func_d(src)] on the thread started for it, with the timeline at [src]
    bound (macro [T_MONITOR_FUNC_CUSTOM]): the elapsed time printed and the
    dump printed. *)
Definition func_d : M (Z * string) :=
  '(mon, _) ← new "func_d" event_id_counter_init;
  elapsed ← TimelineMonitor.getElapsedUs mon;
  '(exported, mon) ← TimelineMonitor.exportTimeline mon;
  let dump := TimelineDump.toString exported in
  TimelineMonitor.destroy mon ;;
  mret (elapsed, dump).

(** [func_e()] on a thread whose counter is [event_id_counter]; the thread
    for [func_d] is joined at once.  The result: what [func_d] printed, the
    final value of the local [exported], and the counter after. *)
Definition func_e (event_id_counter : Z) : M (Z * string * Timeline.t * Z) :=
  '(mon, event_id_counter) ← new "func_e" event_id_counter;
  '(exported, mon) ← TimelineMonitor.exportTimeline mon;
  '(out, exported) ← QuickStart.on_timeline exported func_d;
  TimelineMonitor.destroy mon ;;
  mret (out, exported, event_id_counter).

End SrcHeader.

(** ** Scopes run inside an open chain *)

Module Scoped.

(** Inside the chain opened by the Begin event [b]: [b] is still the first
    stored event, the clock is [clk], and since the chain was opened (at
    reading number [r0]) the clock has been read once per stored event. *)
Definition running (b : TimelineElem.t) (clk : nat -> time_point) (r0 : nat)
  (k n : nat) (d : Z) (w : Run.World) : Prop :=
  Chain.inside (TimelineElem.getId b) k n d w
  /\ head (Timeline.elems (Run.timelineRef w)) = Some b
  /\ Run.clock w = clk
  /\ Run.clock_reads w = (r0 + n)%nat.

(** [u] runs inside any open chain, uses [dk] ids, stores [dn] events and
    leaves the depth counter where it was. *)
Definition unit_of (u : Run.M unit) (dk dn : nat) : Prop :=
  forall b clk r0 k n d w,
    running b clk r0 k n d w ->
    (0 < k)%nat -> Z.of_nat (k + dk) <= 2 ^ 64 ->
    is_uint64 (TimelineElem.getId b) -> is_uint32 d ->
    exists w', u w = Some (tt, w')
               /\ running b clk r0 (k + dk) (n + dn) d w'.

End Scoped.

(** * Properties *)

(** ** Machine arithmetic *)

Lemma wrap32_range z : is_uint32 (wrap32 z).
Proof. unfold is_uint32, wrap32. apply Z.mod_pos_bound. lia. Qed.

Lemma wrap64_range z : is_uint64 (wrap64 z).
Proof. unfold is_uint64, wrap64. apply Z.mod_pos_bound. lia. Qed.

Lemma wrap32_small z : is_uint32 z -> wrap32 z = z.
Proof. unfold is_uint32, wrap32. intros H. apply Z.mod_small. exact H. Qed.

Lemma wrap64_small z : is_uint64 z -> wrap64 z = z.
Proof. unfold is_uint64, wrap64. intros H. apply Z.mod_small. exact H. Qed.

Lemma wrap32_succ_pred d : is_uint32 d -> wrap32 (wrap32 (d + 1) - 1) = d.
Proof.
  intros H. unfold wrap32.
  rewrite Zminus_mod_idemp_l.
  replace (d + 1 - 1) with d by lia.
  apply Z.mod_small. exact H.
Qed.

Lemma wrap64_succ_add c k : wrap64 (wrap64 (c + k) + 1) = wrap64 (c + (k + 1)).
Proof.
  unfold wrap64. rewrite Zplus_mod_idemp_l. f_equal. lia.
Qed.

(** Among fewer than 2^64 consecutive ids none repeats the first. *)
Lemma wrap64_add_ne c k :
  is_uint64 c -> 0 < k < 2 ^ 64 -> wrap64 (c + k) <> c.
Proof.
  unfold is_uint64, wrap64. intros Hc Hk Heq.
  destruct (Z_lt_ge_dec (c + k) (2 ^ 64)) as [Hlt | Hge].
  - rewrite Z.mod_small in Heq by lia. lia.
  - assert (Hm : (c + k) mod 2 ^ 64 = c + k - 2 ^ 64).
    { symmetry. apply (Zmod_unique _ _ 1); lia. }
    lia.
Qed.

(** ** [Timeline]: the values stay in range *)

Lemma wf_new : Timeline.wf Timeline.new.
Proof. unfold Timeline.wf, is_uint64, is_uint32. simpl. lia. Qed.

Lemma wf_pushBegin tl name id now :
  Timeline.wf tl -> Timeline.wf (Timeline.pushBegin tl name id now).
Proof.
  intros [Hc _]. split; simpl; [exact Hc | apply wrap32_range].
Qed.

Lemma wf_issueId tl : Timeline.wf tl -> Timeline.wf (snd (Timeline.issueId tl)).
Proof.
  intros [_ Hd]. split; simpl; [apply wrap64_range | exact Hd].
Qed.

(** ** [clearIfNecessary] after an append *)

Lemma clearIfNecessary_app ctr l e d id :
  Timeline.clearIfNecessary (Timeline.make ctr (l ++ [e]) d) id
  = Some (Timeline.make ctr
            (if bool_decide (TimelineElem.getId <$> head (l ++ [e]) = Some id)
             then [] else l ++ [e]) d).
Proof.
  unfold Timeline.clearIfNecessary. simpl.
  destruct (l ++ [e]) as [| x r] eqn:E.
  - destruct l; discriminate.
  - simpl. destruct (Z.eqb_spec (TimelineElem.getId x) id) as [-> | Hne].
    + rewrite bool_decide_eq_true_2 by reflexivity. reflexivity.
    + rewrite bool_decide_eq_false_2 by congruence. reflexivity.
Qed.

Lemma pushEnd_eq tl name id now :
  let d := wrap32 (Timeline.lastDepth tl - 1) in
  let appended :=
    Timeline.elems tl ++ [TimelineElem.make name TimelineElem.END id d now] in
  Timeline.pushEnd tl name id now
  = Some (Timeline.make (Timeline.eventIdCounter tl)
            (if bool_decide (TimelineElem.getId <$> head appended = Some id)
             then [] else appended) d).
Proof. intros d appended. unfold Timeline.pushEnd. apply clearIfNecessary_app. Qed.

Lemma pushEndAndExport_eq tl name id now :
  let d := wrap32 (Timeline.lastDepth tl - 1) in
  let appended :=
    Timeline.elems tl ++ [TimelineElem.make name TimelineElem.END id d now] in
  Timeline.pushEndAndExport tl name id now
  = Some (Timeline.make (Timeline.eventIdCounter tl) appended d,
          Timeline.make (Timeline.eventIdCounter tl)
            (if bool_decide (TimelineElem.getId <$> head appended = Some id)
             then [] else appended) d).
Proof.
  intros d appended. unfold Timeline.pushEndAndExport.
  rewrite clearIfNecessary_app. reflexivity.
Qed.

Lemma wf_pushEnd tl name id now tl' :
  Timeline.wf tl -> Timeline.pushEnd tl name id now = Some tl' -> Timeline.wf tl'.
Proof.
  intros [Hc _]. rewrite pushEnd_eq. intros [= <-].
  split; simpl; [exact Hc | apply wrap32_range].
Qed.

Lemma app_one_not_nil {A : Type} (l : list A) (x : A) : l ++ [x] <> [].
Proof. destruct l; discriminate. Qed.

(** C2.  [pushEnd(name, id)] decrements the nesting counter (as a 32-bit
    unsigned number), appends an End event whose depth is the counter after
    the decrement, and then clears the whole sequence exactly when the first
    event of the sequence, as it stands after the append, has the id [id];
    otherwise the sequence is the old one with the End event at the back. *)
Theorem pushEnd_spec (tl : Timeline.t) (name : string) (id : Z) (now : time_point) :
  let d := wrap32 (Timeline.lastDepth tl - 1) in
  let e := TimelineElem.make name TimelineElem.END id d now in
  let appended := Timeline.elems tl ++ [e] in
  exists tl',
    Timeline.pushEnd tl name id now = Some tl'
    /\ Timeline.lastDepth tl' = d
    /\ Timeline.eventIdCounter tl' = Timeline.eventIdCounter tl
    /\ (Timeline.elems tl' = [] <->
        TimelineElem.getId <$> head appended = Some id)
    /\ Timeline.elems tl'
       = if bool_decide (TimelineElem.getId <$> head appended = Some id)
         then [] else appended.
Proof.
  intros d e appended. eexists. split; [apply pushEnd_eq |].
  simpl. repeat split; try reflexivity.
  - fold d e appended. case_bool_decide as Hd; [intros _; exact Hd |].
    intros Habs. exfalso. exact (app_one_not_nil _ _ Habs).
  - fold d e appended. intros Hid. rewrite bool_decide_eq_true_2 by exact Hid.
    reflexivity.
Qed.

(** C3.  [pushEndAndExport(name, id)] appends the End event that [pushEnd]
    appends and returns a copy taken before the reset rule runs: the copy
    holds every event accumulated so far followed by that End event, whether
    or not the source is cleared afterwards.  The source ends up exactly as
    after [pushEnd]: cleared if and only if [id] is the id of the first
    stored event. *)
Theorem pushEndAndExport_spec
  (tl : Timeline.t) (name : string) (id : Z) (now : time_point) :
  let d := wrap32 (Timeline.lastDepth tl - 1) in
  let e := TimelineElem.make name TimelineElem.END id d now in
  let appended := Timeline.elems tl ++ [e] in
  exists ret tl',
    Timeline.pushEndAndExport tl name id now = Some (ret, tl')
    /\ ret = Timeline.make (Timeline.eventIdCounter tl) appended d
    /\ Timeline.pushEnd tl name id now = Some tl'
    /\ (Timeline.elems tl' = [] <->
        TimelineElem.getId <$> head appended = Some id)
    /\ Timeline.elems tl'
       = if bool_decide (TimelineElem.getId <$> head appended = Some id)
         then [] else appended.
Proof.
  intros d e appended. eexists _, _.
  split; [apply pushEndAndExport_eq |].
  split; [reflexivity |].
  split; [apply pushEnd_eq |].
  simpl. fold d e appended. split; [| reflexivity].
  case_bool_decide as Hd; split; try done.
  intros Habs. exfalso. exact (app_one_not_nil _ _ Habs).
Qed.

(** C9.  Inside [pushEnd] and [pushEndAndExport] the call of
    [clearIfNecessary] runs on a timeline whose sequence ends with the End
    event just appended, so the first element it reads exists and both
    operations are defined on every timeline; [clearIfNecessary] called on
    its own on a timeline with an empty sequence reads the first element of
    an empty list, which is undefined. *)
Theorem clearIfNecessary_first_elem :
  (forall (tl : Timeline.t) (name : string) (id : Z) (now : time_point),
      exists tl1 : Timeline.t,
        Timeline.elems tl1
        = Timeline.elems tl
          ++ [TimelineElem.make name TimelineElem.END id
                (wrap32 (Timeline.lastDepth tl - 1)) now]
        /\ Timeline.elems tl1 <> []
        /\ Timeline.pushEnd tl name id now = Timeline.clearIfNecessary tl1 id
        /\ Timeline.pushEndAndExport tl name id now
           = (tl2 ← Timeline.clearIfNecessary tl1 id; Some (tl1, tl2))
        /\ is_Some (Timeline.clearIfNecessary tl1 id)
        /\ is_Some (Timeline.pushEnd tl name id now)
        /\ is_Some (Timeline.pushEndAndExport tl name id now))
  /\ (forall (ctr d id : Z),
         Timeline.clearIfNecessary (Timeline.make ctr [] d) id = None).
Proof.
  split.
  - intros tl name id now.
    exists (Timeline.make (Timeline.eventIdCounter tl)
              (Timeline.elems tl
               ++ [TimelineElem.make name TimelineElem.END id
                     (wrap32 (Timeline.lastDepth tl - 1)) now])
              (wrap32 (Timeline.lastDepth tl - 1))).
    split; [reflexivity |].
    split; [apply app_one_not_nil |].
    split; [reflexivity |].
    split; [reflexivity |].
    split; [rewrite clearIfNecessary_app; eexists; reflexivity |].
    split.
    + rewrite pushEnd_eq. eexists. reflexivity.
    + rewrite pushEndAndExport_eq. eexists. reflexivity.
  - intros ctr d id. reflexivity.
Qed.

(** C10.  The nesting counter is a 32-bit unsigned number that wraps: an End
    pushed on a timeline whose counter is 0 gets the depth 2^32 - 1 and
    leaves the counter at 2^32 - 1, for [pushEnd] and for
    [pushEndAndExport]; the event is at the back of the exported copy.  On
    an empty sequence the End event is its own first element, so the source
    sequence is cleared all the same. *)
Theorem pushEnd_depth_wraps
  (tl : Timeline.t) (name : string) (id : Z) (now : time_point) :
  Timeline.lastDepth tl = 0 ->
  exists ret tl',
    Timeline.pushEndAndExport tl name id now = Some (ret, tl')
    /\ Timeline.pushEnd tl name id now = Some tl'
    /\ last (Timeline.getElems ret)
       = Some (TimelineElem.make name TimelineElem.END id (2 ^ 32 - 1) now)
    /\ Timeline.getDepth ret = 2 ^ 32 - 1
    /\ Timeline.getDepth tl' = 2 ^ 32 - 1
    /\ (Timeline.elems tl = [] -> Timeline.elems tl' = []).
Proof.
  intros H0. eexists _, _.
  split; [apply pushEndAndExport_eq |].
  split; [apply pushEnd_eq |].
  rewrite H0. change (wrap32 (0 - 1)) with (2 ^ 32 - 1).
  unfold Timeline.getElems, Timeline.getDepth. simpl.
  split; [apply last_snoc |].
  split; [reflexivity |].
  split; [reflexivity |].
  intros ->. simpl. unfold TimelineElem.getId. simpl.
  rewrite bool_decide_eq_true_2 by reflexivity. reflexivity.
Qed.

Lemma pushEnd_depth_wraps_witness :
  exists ret tl',
    Timeline.pushEndAndExport Timeline.new "f" 0 1000 = Some (ret, tl')
    /\ Timeline.pushEnd Timeline.new "f" 0 1000 = Some tl'
    /\ last (Timeline.getElems ret)
       = Some (TimelineElem.make "f" TimelineElem.END 0 (2 ^ 32 - 1) 1000)
    /\ Timeline.getDepth ret = 2 ^ 32 - 1
    /\ Timeline.getDepth tl' = 2 ^ 32 - 1
    /\ (Timeline.elems Timeline.new = [] -> Timeline.elems tl' = []).
Proof. apply (pushEnd_depth_wraps Timeline.new "f" 0 1000). reflexivity. Defined.

(** ** Well-nested sequences keep the depth *)

Lemma exec_app ops1 ops2 tl :
  Nesting.exec (ops1 ++ ops2) tl
  = (tl' ← Nesting.exec ops1 tl; Nesting.exec ops2 tl').
Proof.
  revert tl. induction ops1 as [| o ops1 IH]; intros tl; simpl.
  - reflexivity.
  - destruct (Nesting.step tl o) as [tl1 |]; simpl; [apply IH | reflexivity].
Qed.

Lemma step_defined tl o :
  Timeline.wf tl -> exists tl', Nesting.step tl o = Some tl' /\ Timeline.wf tl'.
Proof.
  intros Hwf. destruct o as [name id now | name id now]; simpl.
  - eexists. split; [reflexivity | apply wf_pushBegin, Hwf].
  - eexists. split; [apply pushEnd_eq |].
    split; simpl; [apply Hwf | apply wrap32_range].
Qed.

Lemma exec_defined ops tl :
  Timeline.wf tl -> exists tl', Nesting.exec ops tl = Some tl' /\ Timeline.wf tl'.
Proof.
  revert tl. induction ops as [| o ops IH]; intros tl Hwf; simpl.
  - eauto.
  - destruct (step_defined tl o Hwf) as (tl1 & -> & Hwf1). simpl.
    apply IH, Hwf1.
Qed.

Lemma exec_well_nested body :
  Nesting.well_nested body ->
  forall tl, Timeline.wf tl ->
  exists tl', Nesting.exec body tl = Some tl'
              /\ Timeline.wf tl'
              /\ Timeline.lastDepth tl' = Timeline.lastDepth tl.
Proof.
  induction 1 as [| name name' id tb te body rest _ IHb _ IHr]; intros tl Hwf.
  - exists tl. simpl. auto.
  - change (Nesting.OpBegin name id tb :: body ++ Nesting.OpEnd name' id te :: rest)
      with ([Nesting.OpBegin name id tb]
            ++ body ++ [Nesting.OpEnd name' id te] ++ rest).
    rewrite !exec_app.
    change (Nesting.exec [Nesting.OpBegin name id tb] tl)
      with (Some (Timeline.pushBegin tl name id tb)).
    destruct (IHb (Timeline.pushBegin tl name id tb)) as (tl1 & Hb & Hwf1 & Hd1).
    { apply wf_pushBegin, Hwf. }
    cbn [mbind option_bind]. rewrite exec_app, Hb.
    cbn [mbind option_bind]. rewrite exec_app.
    change (Nesting.exec [Nesting.OpEnd name' id te] tl1)
      with (tl' ← Timeline.pushEnd tl1 name' id te; Some tl').
    rewrite pushEnd_eq. cbn [mbind option_bind].
    match goal with |- context [Nesting.exec rest ?x] => set (tl2 := x) end.
    assert (Hd2 : Timeline.lastDepth tl2 = Timeline.lastDepth tl).
    { subst tl2. cbn [Timeline.lastDepth]. rewrite Hd1.
      cbn [Timeline.lastDepth Timeline.pushBegin].
      apply wrap32_succ_pred. apply Hwf. }
    assert (Hwf2 : Timeline.wf tl2).
    { split; [apply Hwf1 | rewrite Hd2; apply Hwf]. }
    destruct (IHr tl2 Hwf2) as (tl3 & -> & Hwf3 & Hd3).
    exists tl3. split; [reflexivity |]. split; [exact Hwf3 | congruence].
Qed.

(** C6.  In a sequence of [pushBegin]/[pushEnd] calls, take any Begin whose
    End comes after a well-nested body.  The Begin event carries the value
    the counter had before the increment, the End event (read at the back of
    the copy that [pushEndAndExport] returns, which is the event [pushEnd]
    appends) carries the value the counter has after the decrement, and the
    two depths are equal. *)
Theorem matched_pair_same_depth
  (tl : Timeline.t) (pre body : list Nesting.op)
  (name name' : string) (id : Z) (t_begin t_end : time_point) :
  Timeline.wf tl ->
  Nesting.well_nested body ->
  exists (tl0 tl2 ret tl3 : Timeline.t) (b e : TimelineElem.t),
    Nesting.exec pre tl = Some tl0
    /\ Nesting.exec body (Timeline.pushBegin tl0 name id t_begin) = Some tl2
    /\ Timeline.pushEnd tl2 name' id t_end = Some tl3
    /\ Timeline.pushEndAndExport tl2 name' id t_end = Some (ret, tl3)
    /\ last (Timeline.elems (Timeline.pushBegin tl0 name id t_begin)) = Some b
    /\ last (Timeline.elems ret) = Some e
    /\ TimelineElem.getType b = TimelineElem.BEGIN
    /\ TimelineElem.getType e = TimelineElem.END
    /\ TimelineElem.getId b = id /\ TimelineElem.getId e = id
    /\ TimelineElem.getDepth b = Timeline.lastDepth tl0
    /\ Timeline.lastDepth (Timeline.pushBegin tl0 name id t_begin)
       = wrap32 (Timeline.lastDepth tl0 + 1)
    /\ Timeline.lastDepth tl3 = wrap32 (Timeline.lastDepth tl2 - 1)
    /\ TimelineElem.getDepth e = Timeline.lastDepth tl3
    /\ TimelineElem.getDepth b = TimelineElem.getDepth e.
Proof.
  intros Hwf Hbody.
  destruct (exec_defined pre tl Hwf) as (tl0 & Hpre & Hwf0).
  destruct (exec_well_nested body Hbody (Timeline.pushBegin tl0 name id t_begin))
    as (tl2 & Hex & Hwf2 & Hd2).
  { apply wf_pushBegin, Hwf0. }
  eexists tl0, tl2, _, _, _, _.
  split; [exact Hpre |].
  split; [exact Hex |].
  split; [apply pushEnd_eq |].
  split; [apply pushEndAndExport_eq |].
  split; [simpl; apply last_snoc |].
  split; [simpl; apply last_snoc |].
  simpl. unfold TimelineElem.getDepth. simpl.
  repeat (split; [reflexivity |]).
  rewrite Hd2. simpl. symmetry. apply wrap32_succ_pred. apply Hwf0.
Qed.

Lemma matched_pair_same_depth_witness :
  exists (tl0 tl2 ret tl3 : Timeline.t) (b e : TimelineElem.t),
    Nesting.exec [Nesting.OpBegin "outer" 0 10] Timeline.new = Some tl0
    /\ Nesting.exec [Nesting.OpBegin "leaf" 2 30; Nesting.OpEnd "leaf" 2 40]
         (Timeline.pushBegin tl0 "mid" 1 20) = Some tl2
    /\ Timeline.pushEnd tl2 "mid" 1 50 = Some tl3
    /\ Timeline.pushEndAndExport tl2 "mid" 1 50 = Some (ret, tl3)
    /\ last (Timeline.elems (Timeline.pushBegin tl0 "mid" 1 20)) = Some b
    /\ last (Timeline.elems ret) = Some e
    /\ TimelineElem.getType b = TimelineElem.BEGIN
    /\ TimelineElem.getType e = TimelineElem.END
    /\ TimelineElem.getId b = 1 /\ TimelineElem.getId e = 1
    /\ TimelineElem.getDepth b = Timeline.lastDepth tl0
    /\ Timeline.lastDepth (Timeline.pushBegin tl0 "mid" 1 20)
       = wrap32 (Timeline.lastDepth tl0 + 1)
    /\ Timeline.lastDepth tl3 = wrap32 (Timeline.lastDepth tl2 - 1)
    /\ TimelineElem.getDepth e = Timeline.lastDepth tl3
    /\ TimelineElem.getDepth b = TimelineElem.getDepth e.
Proof.
  apply (matched_pair_same_depth Timeline.new
           [Nesting.OpBegin "outer" 0 10]
           [Nesting.OpBegin "leaf" 2 30; Nesting.OpEnd "leaf" 2 40]
           "mid" "mid" 1 20 50).
  - exact wf_new.
  - apply (Nesting.wn_scope "leaf" "leaf" 2 30 40 [] []); constructor.
Defined.

(** ** The guard *)

Lemma destroy_done (m : TimelineMonitor.t) (w : Run.World) :
  TimelineMonitor.done m = true -> TimelineMonitor.destroy m w = Some (m, w).
Proof. intros H. unfold TimelineMonitor.destroy. rewrite H. reflexivity. Qed.

Lemma exportTimeline_eq (m : TimelineMonitor.t) (w : Run.World) :
  let tl := Run.timelineRef w in
  let now := Run.clock w (Run.clock_reads w) in
  let d := wrap32 (Timeline.lastDepth tl - 1) in
  let appended :=
    Timeline.elems tl
    ++ [TimelineElem.make (TimelineMonitor.myName m) TimelineElem.END
          (TimelineMonitor.myId m) d now] in
  TimelineMonitor.exportTimeline m w
  = Some ((Timeline.make (Timeline.eventIdCounter tl) appended d,
           TimelineMonitor.make (TimelineMonitor.myName m)
             (TimelineMonitor.myId m) true),
          Run.mkWorld
            (Timeline.make (Timeline.eventIdCounter tl)
               (if bool_decide (TimelineElem.getId <$> head appended
                                = Some (TimelineMonitor.myId m))
                then [] else appended) d)
            (Run.clock w) (S (Run.clock_reads w))).
Proof.
  intros tl now d appended.
  unfold TimelineMonitor.exportTimeline, mbind, Run.M_bind,
    Run.get_timeline, Run.system_clock_now, Run.defined.
  cbn [Run.timelineRef Run.clock Run.clock_reads].
  rewrite pushEndAndExport_eq. reflexivity.
Qed.

Lemma destroy_eq (m : TimelineMonitor.t) (w : Run.World) :
  TimelineMonitor.done m = false ->
  let tl := Run.timelineRef w in
  let now := Run.clock w (Run.clock_reads w) in
  let d := wrap32 (Timeline.lastDepth tl - 1) in
  let appended :=
    Timeline.elems tl
    ++ [TimelineElem.make (TimelineMonitor.myName m) TimelineElem.END
          (TimelineMonitor.myId m) d now] in
  TimelineMonitor.destroy m w
  = Some (TimelineMonitor.make (TimelineMonitor.myName m)
            (TimelineMonitor.myId m) true,
          Run.mkWorld
            (Timeline.make (Timeline.eventIdCounter tl)
               (if bool_decide (TimelineElem.getId <$> head appended
                                = Some (TimelineMonitor.myId m))
                then [] else appended) d)
            (Run.clock w) (S (Run.clock_reads w))).
Proof.
  intros Hd tl now d appended.
  unfold TimelineMonitor.destroy. rewrite Hd.
  unfold mbind, Run.M_bind, Run.get_timeline, Run.system_clock_now, Run.defined.
  cbn [Run.timelineRef Run.clock Run.clock_reads].
  rewrite pushEnd_eq. reflexivity.
Qed.

Lemma new_eq (name : string) (w : Run.World) :
  let tl := Run.timelineRef w in
  let now := Run.clock w (Run.clock_reads w) in
  TimelineMonitor.new name w
  = Some (TimelineMonitor.make name (Timeline.eventIdCounter tl) false,
          Run.mkWorld
            (Timeline.make (wrap64 (Timeline.eventIdCounter tl + 1))
               (Timeline.elems tl
                ++ [TimelineElem.make name TimelineElem.BEGIN
                      (Timeline.eventIdCounter tl) (Timeline.lastDepth tl) now])
               (wrap32 (Timeline.lastDepth tl + 1)))
            (Run.clock w) (S (Run.clock_reads w))).
Proof. reflexivity. Qed.

(** The part of the idempotence that the code has: after [exportTimeline]
    the destructor appends nothing, and neither does a second run of the
    destructor's body. *)
Lemma export_then_destroy (m : TimelineMonitor.t) (w : Run.World) :
  exists ret m' w',
    TimelineMonitor.exportTimeline m w = Some ((ret, m'), w')
    /\ TimelineMonitor.destroy m' w' = Some (m', w').
Proof.
  eexists _, _, _. split; [apply exportTimeline_eq |].
  apply destroy_done. reflexivity.
Qed.

Lemma destroy_then_destroy (m : TimelineMonitor.t) (w : Run.World) :
  exists m' w',
    TimelineMonitor.destroy m w = Some (m', w')
    /\ TimelineMonitor.destroy m' w' = Some (m', w').
Proof.
  destruct (TimelineMonitor.done m) eqn:Hd.
  - exists m, w. split; apply destroy_done; exact Hd.
  - eexists _, _. split; [apply destroy_eq; exact Hd |].
    apply destroy_done. reflexivity.
Qed.

(** [exportTimeline] never reads [done]: on a finalized guard it appends
    one more End event all the same. *)
Lemma exportTimeline_ignores_done (m : TimelineMonitor.t) (w : Run.World) :
  exists ret m' w' e,
    TimelineMonitor.exportTimeline m w = Some ((ret, m'), w')
    /\ Timeline.elems ret = Timeline.elems (Run.timelineRef w) ++ [e]
    /\ TimelineElem.getType e = TimelineElem.END
    /\ TimelineElem.getId e = TimelineMonitor.myId m.
Proof.
  eexists _, _, _, _. split; [apply exportTimeline_eq |].
  simpl. split; [reflexivity |]. split; reflexivity.
Qed.

(** C4.  The code at a guard finalized twice by [exportTimeline]: inside an
    open outer scope, a guard is created and exported, and exported again.
    The first export sets [done]; the second one appends a second End event
    with the guard's id to the bound timeline and lowers the depth counter
    once more.  Only the destructor checks [done]. *)
Theorem exportTimeline_twice_appends_two_Ends :
  let w0 := Run.mkWorld Timeline.new (fun n => Z.of_nat n * 1000) 0 in
  let prog : Run.M (TimelineMonitor.t * Timeline.t * Timeline.t) :=
    outer ← TimelineMonitor.new "outer";
    inner ← TimelineMonitor.new "inner";
    '(_, inner1) ← TimelineMonitor.exportTimeline inner;
    tl1 ← Run.get_timeline;
    '(_, inner2) ← TimelineMonitor.exportTimeline inner1;
    tl2 ← Run.get_timeline;
    mret (inner1, tl1, tl2) in
  exists inner1 tl1 tl2 w',
    prog w0 = Some ((inner1, tl1, tl2), w')
    /\ TimelineMonitor.done inner1 = true
    /\ Timeline.elems tl1
       = [TimelineElem.make "outer" TimelineElem.BEGIN 0 0 0;
          TimelineElem.make "inner" TimelineElem.BEGIN 1 1 1000;
          TimelineElem.make "inner" TimelineElem.END 1 1 2000]
    /\ Timeline.getDepth tl1 = 1
    /\ Timeline.elems tl2
       = [TimelineElem.make "outer" TimelineElem.BEGIN 0 0 0;
          TimelineElem.make "inner" TimelineElem.BEGIN 1 1 1000;
          TimelineElem.make "inner" TimelineElem.END 1 1 2000;
          TimelineElem.make "inner" TimelineElem.END 1 0 3000]
    /\ Timeline.getDepth tl2 = 0.
Proof.
  intros w0 prog. eexists _, _, _, _.
  split; [reflexivity |].
  repeat split.
Qed.

Lemma div_diff_bound (x y : Z) :
  (x - y) / 1000 <= x / 1000 - y / 1000 <= (x - y) / 1000 + 1.
Proof.
  pose proof (Z.div_mod x 1000 ltac:(lia)).
  pose proof (Z.div_mod y 1000 ltac:(lia)).
  pose proof (Z.div_mod (x - y) 1000 ltac:(lia)).
  pose proof (Z.mod_pos_bound x 1000 ltac:(lia)).
  pose proof (Z.mod_pos_bound y 1000 ltac:(lia)).
  pose proof (Z.mod_pos_bound (x - y) 1000 ltac:(lia)).
  generalize dependent (x / 1000). generalize dependent (y / 1000).
  generalize dependent ((x - y) / 1000).
  generalize dependent (x mod 1000). generalize dependent (y mod 1000).
  generalize dependent ((x - y) mod 1000).
  intros. lia.
Qed.

(** C7 (amended).  [getElapsedUs] returns 0 on an empty sequence, without
    reading the clock; otherwise it reads the clock once and returns the
    difference, in 64-bit unsigned arithmetic, between the epoch
    microseconds [a] of that reading and the epoch microseconds [b] of the
    first stored event: [a - b] when [b <= a], and the wrapped value
    [2^64 - (b - a)] when the clock is behind the event.  When the clock has
    not gone back behind the event (both at or after the epoch, in the
    64-bit tick range) the first case applies and the result is within one
    microsecond of the ticks elapsed.  The bound timeline is left as it was,
    the guard is not changed ([const]), and the result does not depend on
    the guard, finalized or not. *)
Theorem getElapsedUs_spec (m : TimelineMonitor.t) (w : Run.World) :
  exists (r : Z) (w' : Run.World),
    TimelineMonitor.getElapsedUs m w = Some (r, w')
    /\ Run.timelineRef w' = Run.timelineRef w
    /\ (forall m', TimelineMonitor.getElapsedUs m' w = Some (r, w'))
    /\ is_uint64 r
    /\ match Timeline.getElems (Run.timelineRef w) with
       | [] => r = 0 /\ w' = w
       | te :: _ =>
           let now := Run.clock w (Run.clock_reads w) in
           let ts := TimelineElem.getTimestamp te in
           let a := TimelineElem.getEpochUs_of now in
           let b := TimelineElem.getEpochUs te in
           w' = Run.mkWorld (Run.timelineRef w) (Run.clock w)
                  (S (Run.clock_reads w))
           /\ (b <= a -> r = a - b)
           /\ (a < b -> r = 2 ^ 64 - (b - a))
           /\ (0 <= ts <= now -> now < 2 ^ 63 ->
               a = Z.quot now ticks_per_us
               /\ b = Z.quot ts ticks_per_us
               /\ r = a - b
               /\ Z.quot (now - ts) ticks_per_us <= r
                  <= Z.quot (now - ts) ticks_per_us + 1)
       end.
Proof.
  unfold TimelineMonitor.getElapsedUs, mbind, Run.M_bind, Run.get_timeline.
  destruct (Timeline.getElems (Run.timelineRef w)) as [| te rest] eqn:E.
  - exists 0, w. unfold is_uint64. repeat split; try reflexivity; lia.
  - eexists _, _. split; [reflexivity |].
    split; [reflexivity |]. split; [reflexivity |].
    split; [apply wrap64_range |].
    cbn zeta. split; [reflexivity |].
    pose proof (wrap64_range
                  (Z.quot (Run.clock w (Run.clock_reads w)) ticks_per_us)) as Ha.
    pose proof (wrap64_range
                  (Z.quot (TimelineElem.timestamp te) ticks_per_us)) as Hb.
    unfold TimelineElem.getEpochUs, TimelineElem.getEpochUs_of,
      TimelineElem.getTimestamp, is_uint64 in *.
    set (a := wrap64 (Z.quot (Run.clock w (Run.clock_reads w)) ticks_per_us))
      in *.
    set (b := wrap64 (Z.quot (TimelineElem.timestamp te) ticks_per_us)) in *.
    split; [| split].
    + clearbody a b. intros Hle. apply wrap64_small. unfold is_uint64. lia.
    + clearbody a b. intros Hlt. unfold wrap64. symmetry.
      apply (Zmod_unique _ _ (-1)); lia.
    + intros [Hts Hle] Hnow. subst a b. unfold ticks_per_us in *.
      set (x := Run.clock w (Run.clock_reads w)) in *.
      set (y := TimelineElem.timestamp te) in *.
      rewrite !Z.quot_div_nonneg by lia.
      assert (0 <= y / 1000 <= x / 1000)
        by (split; [apply Z.div_pos | apply Z.div_le_mono]; lia).
      assert (x / 1000 < 2 ^ 63) by (apply Z.div_lt_upper_bound; lia).
      rewrite (wrap64_small (x / 1000)) by (unfold is_uint64; lia).
      rewrite (wrap64_small (y / 1000)) by (unfold is_uint64; lia).
      rewrite wrap64_small by (unfold is_uint64; lia).
      split; [reflexivity |]. split; [reflexivity |].
      split; [reflexivity |].
      apply div_diff_bound.
Qed.

Lemma getElapsedUs_spec_witness :
  let te := TimelineElem.make "f" TimelineElem.BEGIN 0 0 5000999 in
  let w := Run.mkWorld (Timeline.make 1 [te] 1) (fun _ => 5042000) 1 in
  exists (r : Z) (w' : Run.World),
    TimelineMonitor.getElapsedUs (TimelineMonitor.make "f" 0 false) w
    = Some (r, w')
    /\ r = 42
    /\ Z.quot (5042000 - 5000999) ticks_per_us <= r
       <= Z.quot (5042000 - 5000999) ticks_per_us + 1.
Proof.
  intros te w.
  destruct (getElapsedUs_spec (TimelineMonitor.make "f" 0 false) w)
    as (r & w' & Heq & _ & _ & _ & Hcase).
  exists r, w'. split; [exact Heq |].
  cbn in Hcase. destruct Hcase as (_ & _ & _ & Hplain).
  destruct Hplain as (_ & _ & Hr & Hbound); [lia | lia |].
  split; [rewrite Hr; reflexivity | exact Hbound].
Defined.

(** C7 as stated fails when the clock reads earlier than the first stored
    event: with the clock 2 microseconds behind, the result is 2^64 - 2,
    not the difference of the two times. *)
Lemma getElapsedUs_behind_is_not_the_difference :
  let te := TimelineElem.make "f" TimelineElem.BEGIN 0 0 9000000 in
  let w := Run.mkWorld (Timeline.make 1 [te] 1) (fun _ => 8998000) 1 in
  TimelineMonitor.getElapsedUs (TimelineMonitor.make "f" 0 false) w
  = Some (18446744073709551614,
          Run.mkWorld (Timeline.make 1 [te] 1) (fun _ => 8998000) 2%nat)
  /\ 18446744073709551614
     <> Z.quot 8998000 ticks_per_us - Z.quot 9000000 ticks_per_us
  /\ 18446744073709551614 <> Z.quot (8998000 - 9000000) ticks_per_us.
Proof.
  intros te w. split; [reflexivity |]. split; discriminate.
Qed.

Example getElapsedUs_example :
  let e := TimelineElem.make "f" TimelineElem.BEGIN 0 0 5000000 in
  let w := Run.mkWorld (Timeline.make 1 [e] 1) (fun _ => 5042999) 1 in
  TimelineMonitor.getElapsedUs (TimelineMonitor.make "f" 0 false) w
  = Some (42, Run.mkWorld (Timeline.make 1 [e] 1) (fun _ => 5042999) 2%nat).
Proof. reflexivity. Qed.

(** ** Running guards inside an open chain *)

Lemma run_bind {A B : Type} (m : Run.M A) (f : A -> Run.M B) w a w' :
  m w = Some (a, w') -> (m ≫= f) w = f a w'.
Proof. intros H. unfold mbind, Run.M_bind. rewrite H. reflexivity. Qed.

Lemma run_ret_bind {A B : Type} (a : A) (f : A -> Run.M B) w :
  (mret a ≫= f) w = f a w.
Proof. reflexivity. Qed.

Lemma head_snoc_inside (l : list TimelineElem.t) (x : TimelineElem.t) (c0 : Z) :
  TimelineElem.getId <$> head l = Some c0 ->
  TimelineElem.getId <$> head (l ++ [x]) = Some c0.
Proof. destruct l; [discriminate | intros H; exact H]. Qed.

Lemma new_inside c0 k n d name w :
  Chain.inside c0 k n d w ->
  exists w',
    TimelineMonitor.new name w
    = Some (TimelineMonitor.make name (wrap64 (c0 + Z.of_nat k)) false, w')
    /\ Chain.inside c0 (S k) (S n) (wrap32 (d + 1)) w'.
Proof.
  intros (Hh & Hn & Hc & Hd). rewrite new_eq. eexists. split.
  - rewrite Hc. reflexivity.
  - unfold Chain.inside. cbn [Run.timelineRef Timeline.elems
      Timeline.eventIdCounter Timeline.lastDepth].
    split; [apply head_snoc_inside, Hh |].
    split; [rewrite length_app, Hn; simpl; lia |].
    split; [| rewrite Hd; reflexivity].
    rewrite ?Hc, wrap64_succ_add. f_equal. lia.
Qed.

Lemma destroy_inside c0 k n d m w :
  Chain.inside c0 k n d w ->
  TimelineMonitor.done m = false ->
  TimelineMonitor.myId m <> c0 ->
  exists m' w',
    TimelineMonitor.destroy m w = Some (m', w')
    /\ Chain.inside c0 k (S n) (wrap32 (d - 1)) w'.
Proof.
  intros (Hh & Hn & Hc & Hd) Hdone Hne.
  rewrite (destroy_eq m w Hdone). eexists _, _. split; [reflexivity |].
  unfold Chain.inside. cbn [Run.timelineRef].
  rewrite bool_decide_eq_false_2.
  2:{ rewrite (head_snoc_inside _ _ c0 Hh). congruence. }
  cbn [Timeline.elems Timeline.eventIdCounter Timeline.lastDepth].
  split; [apply head_snoc_inside, Hh |].
  split; [rewrite length_app, Hn; simpl; lia |].
  split; [exact Hc | rewrite Hd; reflexivity].
Qed.

Lemma for_loop_inv (P : nat -> Run.World -> Prop) (body : Run.M unit) :
  forall n,
    (forall i w, (i < n)%nat -> P i w ->
                 exists w', body w = Some (tt, w') /\ P (S i) w') ->
    forall w, P 0%nat w ->
    exists w', Run.for_loop n body w = Some (tt, w') /\ P n w'.
Proof.
  intros n. revert P. induction n as [| n IH]; intros P Hbody w H0.
  - exists w. split; [reflexivity | exact H0].
  - destruct (Hbody 0%nat w ltac:(lia) H0) as (w1 & Hb & H1).
    destruct (IH (fun i => P (S i))
                 (fun i w Hi => Hbody (S i) w ltac:(lia)) w1 H1)
      as (w2 & Hl & H2).
    exists w2. split; [| exact H2].
    cbn [Run.for_loop]. rewrite (run_bind _ _ _ _ _ Hb). exact Hl.
Qed.

(** [{ T_MONITOR_BLOCK(name); }] inside an open chain. *)
Lemma block_inside c0 k n d name w :
  Chain.inside c0 k n d w ->
  (0 < k)%nat -> Z.of_nat k < 2 ^ 64 -> is_uint64 c0 -> is_uint32 d ->
  exists w',
    (blk ← TimelineMonitor.new name;
     TimelineMonitor.destroy blk ;; mret tt) w = Some (tt, w')
    /\ Chain.inside c0 (S k) (S (S n)) d w'.
Proof.
  intros Hin Hk0 Hk Hc0 Hd.
  destruct (new_inside c0 k n d name w Hin) as (w1 & Hnew & H1).
  rewrite (run_bind _ _ _ _ _ Hnew).
  destruct (destroy_inside c0 (S k) (S n) (wrap32 (d + 1))
              (TimelineMonitor.make name (wrap64 (c0 + Z.of_nat k)) false) w1 H1)
    as (m' & w2 & Hdes & H2).
  { reflexivity. }
  { simpl. apply wrap64_add_ne; [exact Hc0 | lia]. }
  rewrite (run_bind _ _ _ _ _ Hdes).
  exists w2. split; [reflexivity |].
  rewrite wrap32_succ_pred in H2 by exact Hd. exact H2.
Qed.

(** One call of [func_1] of the hierarchical test inside an open chain. *)
Lemma hier_func_1_inside (A : nat) c0 k n d w :
  Chain.inside c0 k n d w ->
  (0 < k)%nat -> Z.of_nat (k + A) < 2 ^ 64 -> is_uint64 c0 -> is_uint32 d ->
  exists w',
    HierarchicalTest.func_1 A w = Some (tt, w')
    /\ Chain.inside c0 (k + A + 1) (n + 2 * A + 2) d w'.
Proof.
  intros Hin Hk0 Hk Hc0 Hd. unfold HierarchicalTest.func_1.
  destruct (new_inside c0 k n d "operator()" w Hin) as (w1 & Hnew & H1).
  rewrite (run_bind _ _ _ _ _ Hnew).
  destruct (for_loop_inv
              (fun i => Chain.inside c0 (S k + i) (S n + 2 * i) (wrap32 (d + 1)))
              (blk ← TimelineMonitor.new "func_1_inner";
               TimelineMonitor.destroy blk ;; mret tt) A) with (w := w1)
    as (w2 & Hloop & H2).
  { intros i wi Hi Hini.
    destruct (block_inside c0 (S k + i) (S n + 2 * i) (wrap32 (d + 1))
                "func_1_inner" wi Hini) as (wi' & Hrun & Hini');
      [lia | lia | exact Hc0 | apply wrap32_range |].
    exists wi'. split; [exact Hrun |].
    replace (S k + S i)%nat with (S (S k + i)) by lia.
    replace (S n + 2 * S i)%nat with (S (S (S n + 2 * i))) by lia.
    exact Hini'. }
  { replace (S k + 0)%nat with (S k) by lia.
    replace (S n + 2 * 0)%nat with (S n) by lia. exact H1. }
  rewrite (run_bind _ _ _ _ _ Hloop).
  destruct (destroy_inside c0 (S k + A) (S n + 2 * A) (wrap32 (d + 1))
              (TimelineMonitor.make "operator()" (wrap64 (c0 + Z.of_nat k)) false)
              w2 H2)
    as (m' & w3 & Hdes & H3).
  { reflexivity. }
  { simpl. apply wrap64_add_ne; [exact Hc0 | lia]. }
  rewrite (run_bind _ _ _ _ _ Hdes).
  exists w3. split; [reflexivity |].
  rewrite wrap32_succ_pred in H3 by exact Hd.
  replace (k + A + 1)%nat with (S k + A)%nat by lia.
  replace (n + 2 * A + 2)%nat with (S (S n + 2 * A)) by lia.
  exact H3.
Qed.

(** The first guard of a chain. *)
Lemma new_idle name w :
  Chain.idle w ->
  exists w',
    TimelineMonitor.new name w
    = Some (TimelineMonitor.make name
              (Timeline.eventIdCounter (Run.timelineRef w)) false, w')
    /\ Chain.inside (Timeline.eventIdCounter (Run.timelineRef w)) 1 1 1 w'.
Proof.
  intros (He & Hd & Hc). rewrite new_eq. eexists. split; [reflexivity |].
  unfold Chain.inside. cbn [Run.timelineRef Timeline.elems
    Timeline.eventIdCounter Timeline.lastDepth].
  rewrite He, Hd. simpl. repeat split.
Qed.

(** Exporting from the guard that opened the chain. *)
Lemma export_outermost c0 k n d name w :
  Chain.inside c0 k n d w ->
  exists ret m' w',
    TimelineMonitor.exportTimeline (TimelineMonitor.make name c0 false) w
    = Some ((ret, m'), w')
    /\ TimelineMonitor.done m' = true
    /\ length (Timeline.getElems ret) = S n
    /\ firstn n (Timeline.getElems ret) = Timeline.elems (Run.timelineRef w)
    /\ Timeline.getDepth ret = wrap32 (d - 1)
    /\ Timeline.elems (Run.timelineRef w') = []
    /\ Timeline.lastDepth (Run.timelineRef w') = wrap32 (d - 1)
    /\ Timeline.eventIdCounter (Run.timelineRef w')
       = Timeline.eventIdCounter (Run.timelineRef w).
Proof.
  intros (Hh & Hn & Hc & Hd). rewrite exportTimeline_eq.
  eexists _, _, _. split; [reflexivity |].
  cbn [TimelineMonitor.myId TimelineMonitor.myName TimelineMonitor.done
       Run.timelineRef].
  rewrite bool_decide_eq_true_2 by (apply head_snoc_inside, Hh).
  unfold Timeline.getElems, Timeline.getDepth.
  cbn [Timeline.elems Timeline.lastDepth Timeline.eventIdCounter].
  split; [reflexivity |].
  split; [rewrite length_app, Hn; simpl; lia |].
  split; [rewrite <- Hn; apply take_app_length |].
  rewrite Hd. repeat split.
Qed.

(** Exporting from an inner guard: nothing is cleared. *)
Lemma export_inner c0 k n d name i w :
  Chain.inside c0 k n d w ->
  i <> c0 ->
  exists ret m' w',
    TimelineMonitor.exportTimeline (TimelineMonitor.make name i false) w
    = Some ((ret, m'), w')
    /\ TimelineMonitor.done m' = true
    /\ Timeline.getElems ret
       = Timeline.elems (Run.timelineRef w)
         ++ [TimelineElem.make name TimelineElem.END i (wrap32 (d - 1))
               (Run.clock w (Run.clock_reads w))]
    /\ Timeline.getDepth ret = wrap32 (d - 1)
    /\ Timeline.elems (Run.timelineRef w') = Timeline.getElems ret
    /\ Chain.inside c0 k (S n) (wrap32 (d - 1)) w'.
Proof.
  intros (Hh & Hn & Hc & Hd) Hne. rewrite exportTimeline_eq.
  eexists _, _, _. split; [reflexivity |].
  cbn [TimelineMonitor.myId TimelineMonitor.myName TimelineMonitor.done
       Run.timelineRef].
  rewrite bool_decide_eq_false_2.
  2:{ rewrite (head_snoc_inside _ _ c0 Hh). congruence. }
  unfold Timeline.getElems, Timeline.getDepth, Chain.inside.
  cbn [Timeline.elems Timeline.lastDepth Timeline.eventIdCounter Run.timelineRef].
  rewrite Hd.
  split; [reflexivity |]. split; [reflexivity |]. split; [reflexivity |].
  split; [reflexivity |].
  split; [apply head_snoc_inside, Hh |].
  split; [rewrite length_app, Hn; simpl; lia |].
  split; [exact Hc | reflexivity].
Qed.

(** The destructor of the guard that opened the chain clears it. *)
Lemma destroy_outermost c0 k n name w :
  Chain.inside c0 k n 1 w ->
  exists m' w',
    TimelineMonitor.destroy (TimelineMonitor.make name c0 false) w = Some (m', w')
    /\ Chain.idle w'
    /\ Timeline.eventIdCounter (Run.timelineRef w') = wrap64 (c0 + Z.of_nat k).
Proof.
  intros (Hh & Hn & Hc & Hd).
  rewrite (destroy_eq (TimelineMonitor.make name c0 false) w eq_refl).
  eexists _, _. split; [reflexivity |].
  cbn [TimelineMonitor.myId TimelineMonitor.myName Run.timelineRef].
  rewrite bool_decide_eq_true_2 by (apply head_snoc_inside, Hh).
  unfold Chain.idle.
  cbn [Timeline.elems Timeline.lastDepth Timeline.eventIdCounter Run.timelineRef].
  rewrite Hd, Hc. repeat split; apply wrap64_range.
Qed.

(** The whole hierarchical scenario, started while no chain is open. *)
Lemma hierarchical_test_run (A B : nat) (w : Run.World) :
  Chain.idle w ->
  Z.of_nat (1 + B + A * B) <= 2 ^ 64 ->
  exists ret w',
    HierarchicalTest.hierarchical_test A B w = Some (ret, w')
    /\ length (Timeline.getElems ret) = (2 * (1 + B + A * B))%nat
    /\ Timeline.getDepth ret = 0
    /\ Timeline.elems (Run.timelineRef w') = [].
Proof.
  intros Hidle Hids.
  unfold HierarchicalTest.hierarchical_test, HierarchicalTest.func_2.
  destruct (new_idle "operator()" w Hidle) as (w1 & Hnew & H1).
  set (c0 := Timeline.eventIdCounter (Run.timelineRef w)) in *.
  assert (Hc0 : is_uint64 c0) by apply Hidle.
  rewrite (run_bind _ _ _ _ _ Hnew).
  destruct (for_loop_inv
              (fun i => Chain.inside c0 (1 + i * (A + 1)) (1 + i * (2 * A + 2)) 1)
              (HierarchicalTest.func_1 A) B) with (w := w1)
    as (w2 & Hloop & H2).
  { intros i wi Hi Hini.
    destruct (hier_func_1_inside A c0 (1 + i * (A + 1)) (1 + i * (2 * A + 2)) 1
                wi Hini) as (wi' & Hrun & Hini').
    - lia.
    - assert ((1 + i * (A + 1) + A < 1 + B + A * B)%nat) by nia. lia.
    - exact Hc0.
    - unfold is_uint32. lia.
    - exists wi'. split; [exact Hrun |].
      replace (1 + S i * (A + 1))%nat with (1 + i * (A + 1) + A + 1)%nat by lia.
      replace (1 + S i * (2 * A + 2))%nat
        with (1 + i * (2 * A + 2) + 2 * A + 2)%nat by lia.
      exact Hini'. }
  { exact H1. }
  rewrite (run_bind _ _ _ _ _ Hloop).
  destruct (export_outermost c0 _ _ 1 "operator()" w2 H2)
    as (ret & m' & w3 & Hexp & Hdone & Hlen & _ & Hdep & Hclr & _).
  rewrite (run_bind _ _ _ _ _ Hexp). cbn beta iota.
  rewrite (run_bind _ _ _ _ _ (destroy_done m' w3 Hdone)).
  exists ret, w3. split; [reflexivity |].
  split; [rewrite Hlen; lia |].
  split; [rewrite Hdep; reflexivity | exact Hclr].
Qed.

(** C1 (amended).  Started while no chain is open on the thread's timeline,
    with the 1 + B + A*B ids of the run within the 64-bit id space, the
    hierarchical scenario is defined, the timeline exported from the
    outermost scope holds exactly 2 * (1 + B + A*B) events, its depth
    counter is 0, and the source is left cleared.  For A = 5 and B = 10 that
    is 122 events. *)
Theorem hierarchical_test_count (A B : nat) (w : Run.World) :
  Chain.idle w ->
  Z.of_nat (1 + B + A * B) <= 2 ^ 64 ->
  exists ret w',
    HierarchicalTest.hierarchical_test A B w = Some (ret, w')
    /\ length (Timeline.getElems ret) = (2 * (1 + B + A * B))%nat
    /\ (A = 5%nat -> B = 10%nat -> length (Timeline.getElems ret) = 122%nat)
    /\ Timeline.getDepth ret = 0
    /\ Timeline.elems (Run.timelineRef w') = [].
Proof.
  intros Hidle Hids.
  destruct (hierarchical_test_run A B w Hidle Hids)
    as (ret & w' & Hrun & Hlen & Hdep & Hclr).
  exists ret, w'. repeat split; try assumption.
  intros -> ->. exact Hlen.
Qed.

Lemma idle_fresh (clk : nat -> time_point) :
  Chain.idle (Run.mkWorld Timeline.new clk 0).
Proof. unfold Chain.idle, is_uint64. simpl. repeat split; lia. Qed.

Example hierarchical_test_5_10 :
  (fun p : Timeline.t * Run.World =>
     (length (Timeline.getElems p.1), Timeline.getDepth p.1))
  <$> HierarchicalTest.hierarchical_test 5 10
        (Run.mkWorld Timeline.new (fun n => Z.of_nat n * 1000) 0)
  = Some (122%nat, 0).
Proof. reflexivity. Qed.

Lemma hierarchical_test_count_witness :
  exists ret w',
    HierarchicalTest.hierarchical_test 5 10
      (Run.mkWorld Timeline.new (fun n => Z.of_nat n * 1000) 0) = Some (ret, w')
    /\ length (Timeline.getElems ret) = 122%nat
    /\ (5%nat = 5%nat -> 10%nat = 10%nat ->
        length (Timeline.getElems ret) = 122%nat)
    /\ Timeline.getDepth ret = 0
    /\ Timeline.elems (Run.timelineRef w') = [].
Proof.
  apply (hierarchical_test_count 5 10
           (Run.mkWorld Timeline.new (fun n => Z.of_nat n * 1000) 0)).
  - apply idle_fresh.
  - simpl. lia.
Defined.

(** C1 as stated fails at its literal values: on a fresh thread the
    scenario with A = 5 and B = 10 exports 122 events, not 330. *)
Lemma hierarchical_test_5_10_not_330 :
  ~ (exists ret w',
        HierarchicalTest.hierarchical_test 5 10
          (Run.mkWorld Timeline.new (fun n => Z.of_nat n * 1000) 0)
        = Some (ret, w')
        /\ length (Timeline.getElems ret) = 330%nat
        /\ Timeline.getDepth ret = 0).
Proof.
  intros (ret & w' & Hrun & Hlen & _).
  destruct (hierarchical_test_run 5 10
              (Run.mkWorld Timeline.new (fun n => Z.of_nat n * 1000) 0))
    as (ret0 & w0 & Hrun0 & Hlen0 & _).
  - apply idle_fresh.
  - simpl. lia.
  - rewrite Hrun in Hrun0. injection Hrun0 as <- _.
    rewrite Hlen in Hlen0. discriminate Hlen0.
Qed.

(** ** The export-in-the-middle scenario *)

Lemma eitm_func_1_true c0 ret0 w :
  Chain.inside c0 1 1 1 w -> is_uint64 c0 ->
  exists ret w',
    ExportInTheMiddleTest.func_1 true ret0 w = Some (ret, w')
    /\ length (Timeline.getElems ret) = 5%nat
    /\ Timeline.getDepth ret = 1
    /\ Chain.inside c0 3 5 1 w'.
Proof.
  intros Hin Hc0. unfold ExportInTheMiddleTest.func_1.
  destruct (new_inside c0 1 1 1 "operator()" w Hin) as (w1 & Hnew & H1).
  rewrite (run_bind _ _ _ _ _ Hnew).
  destruct (new_inside c0 2 2 (wrap32 (1 + 1)) "func_1_inner" w1 H1)
    as (w1' & Hnew1 & H1').
  rewrite (run_bind _ _ _ _ _ Hnew1).
  destruct (destroy_inside c0 3 3 (wrap32 (wrap32 (1 + 1) + 1))
              (TimelineMonitor.make "func_1_inner"
                 (wrap64 (c0 + Z.of_nat 2)) false) w1' H1')
    as (m1 & w2' & Hdes & H2').
  { reflexivity. }
  { simpl. apply wrap64_add_ne; [exact Hc0 | lia]. }
  rewrite (run_bind _ _ _ _ _ Hdes).
  destruct (export_inner c0 3 4 (wrap32 (wrap32 (wrap32 (1 + 1) + 1) - 1))
              "operator()" (wrap64 (c0 + Z.of_nat 1)) w2' H2')
    as (ret & m' & w3 & Hexp & Hdone & Hel & Hdep & _ & H3).
  { apply wrap64_add_ne; [exact Hc0 | lia]. }
  rewrite (run_bind _ _ _ _ _ Hexp). cbn beta iota.
  rewrite (run_bind _ _ _ _ _ (destroy_done m' w3 Hdone)).
  exists ret, w3. split; [reflexivity |].
  split.
  { rewrite Hel, length_app.
    destruct H2' as (_ & Hn & _). rewrite Hn. reflexivity. }
  split; [rewrite Hdep; reflexivity | exact H3].
Qed.

Lemma eitm_func_1_false c0 ret0 w :
  Chain.inside c0 1 1 1 w -> is_uint64 c0 ->
  exists w',
    ExportInTheMiddleTest.func_1 false ret0 w = Some (ret0, w')
    /\ Chain.inside c0 3 5 1 w'.
Proof.
  intros Hin Hc0. unfold ExportInTheMiddleTest.func_1.
  destruct (new_inside c0 1 1 1 "operator()" w Hin) as (w1 & Hnew & H1).
  rewrite (run_bind _ _ _ _ _ Hnew).
  destruct (new_inside c0 2 2 (wrap32 (1 + 1)) "func_1_inner" w1 H1)
    as (w1' & Hnew1 & H1').
  rewrite (run_bind _ _ _ _ _ Hnew1).
  destruct (destroy_inside c0 3 3 (wrap32 (wrap32 (1 + 1) + 1))
              (TimelineMonitor.make "func_1_inner"
                 (wrap64 (c0 + Z.of_nat 2)) false) w1' H1')
    as (m1 & w2' & Hdes & H2').
  { reflexivity. }
  { simpl. apply wrap64_add_ne; [exact Hc0 | lia]. }
  rewrite (run_bind _ _ _ _ _ Hdes).
  rewrite run_ret_bind. cbn beta iota.
  destruct (destroy_inside c0 3 4 (wrap32 (wrap32 (wrap32 (1 + 1) + 1) - 1))
              (TimelineMonitor.make "operator()"
                 (wrap64 (c0 + Z.of_nat 1)) false) w2' H2')
    as (m2 & w3 & Hdes2 & H3).
  { reflexivity. }
  { simpl. apply wrap64_add_ne; [exact Hc0 | lia]. }
  rewrite (run_bind _ _ _ _ _ Hdes2).
  exists w3. split; [reflexivity | exact H3].
Qed.

Lemma eitm_func_2_true ret0 w :
  Chain.idle w ->
  exists ret w',
    ExportInTheMiddleTest.func_2 true ret0 w = Some (ret, w')
    /\ length (Timeline.getElems ret) = 5%nat
    /\ Timeline.getDepth ret = 1
    /\ Chain.idle w'.
Proof.
  intros Hidle. unfold ExportInTheMiddleTest.func_2.
  destruct (new_idle "operator()" w Hidle) as (w1 & Hnew & H1).
  set (c0 := Timeline.eventIdCounter (Run.timelineRef w)) in *.
  assert (Hc0 : is_uint64 c0) by apply Hidle.
  rewrite (run_bind _ _ _ _ _ Hnew).
  destruct (eitm_func_1_true c0 ret0 w1 H1 Hc0)
    as (ret & w2 & Hf1 & Hlen & Hdep & H2).
  rewrite (run_bind _ _ _ _ _ Hf1).
  cbn [negb]. rewrite run_ret_bind. cbn beta iota.
  destruct (destroy_outermost c0 3 5 "operator()" w2 H2)
    as (m' & w3 & Hdes & Hidle3 & _).
  rewrite (run_bind _ _ _ _ _ Hdes).
  exists ret, w3. split; [reflexivity |]. auto.
Qed.

Lemma eitm_func_2_false ret0 w :
  Chain.idle w ->
  exists ret w',
    ExportInTheMiddleTest.func_2 false ret0 w = Some (ret, w')
    /\ length (Timeline.getElems ret) = 6%nat
    /\ Timeline.getDepth ret = 0
    /\ Timeline.elems (Run.timelineRef w') = [].
Proof.
  intros Hidle. unfold ExportInTheMiddleTest.func_2.
  destruct (new_idle "operator()" w Hidle) as (w1 & Hnew & H1).
  set (c0 := Timeline.eventIdCounter (Run.timelineRef w)) in *.
  assert (Hc0 : is_uint64 c0) by apply Hidle.
  rewrite (run_bind _ _ _ _ _ Hnew).
  destruct (eitm_func_1_false c0 ret0 w1 H1 Hc0) as (w2 & Hf1 & H2).
  rewrite (run_bind _ _ _ _ _ Hf1). cbn [negb].
  destruct (export_outermost c0 3 5 1 "operator()" w2 H2)
    as (ret & m' & w3 & Hexp & Hdone & Hlen & _ & Hdep & Hclr & _).
  rewrite (run_bind _ _ _ _ _ Hexp). cbn beta iota.
  rewrite (run_bind _ _ _ _ _ (destroy_done m' w3 Hdone)).
  exists ret, w3. split; [reflexivity |].
  split; [exact Hlen |]. split; [rewrite Hdep; reflexivity | exact Hclr].
Qed.

Lemma export_in_the_middle_test_run (w : Run.World) :
  Chain.idle w ->
  exists ret1 ret2 w',
    ExportInTheMiddleTest.export_in_the_middle_test w = Some ((ret1, ret2), w')
    /\ length (Timeline.getElems ret1) = 5%nat
    /\ Timeline.getDepth ret1 = 1
    /\ length (Timeline.getElems ret2) = 6%nat
    /\ Timeline.getDepth ret2 = 0
    /\ Timeline.elems (Run.timelineRef w') = [].
Proof.
  intros Hidle. unfold ExportInTheMiddleTest.export_in_the_middle_test.
  cbn zeta.
  destruct (eitm_func_2_true Timeline.new w Hidle)
    as (ret1 & w1 & Hr1 & Hl1 & Hd1 & Hidle1).
  rewrite (run_bind _ _ _ _ _ Hr1).
  destruct (eitm_func_2_false ret1 w1 Hidle1)
    as (ret2 & w2 & Hr2 & Hl2 & Hd2 & Hclr).
  rewrite (run_bind _ _ _ _ _ Hr2).
  exists ret1, ret2, w2. split; [reflexivity |]. auto.
Qed.

(** C5.  While a chain is open, exporting from a guard whose id is not the
    id of the first stored event returns every event stored so far followed
    by the guard's End event, and leaves exactly that sequence in the
    source; exporting later from the guard that opened the chain returns
    the stored events followed by its End event and clears the source.  In
    the export-in-the-middle scenario, started while no chain is open, the
    inner export of the first run gives 5 events with depth 1 and the outer
    export of the second run gives 6 events with depth 0. *)
Theorem export_in_the_middle :
  (forall c0 k n d name i w,
      Chain.inside c0 k n d w -> i <> c0 ->
      exists ret m' w',
        TimelineMonitor.exportTimeline (TimelineMonitor.make name i false) w
        = Some ((ret, m'), w')
        /\ Timeline.getElems ret
           = Timeline.elems (Run.timelineRef w)
             ++ [TimelineElem.make name TimelineElem.END i (wrap32 (d - 1))
                   (Run.clock w (Run.clock_reads w))]
        /\ Timeline.elems (Run.timelineRef w') = Timeline.getElems ret
        /\ Chain.inside c0 k (S n) (wrap32 (d - 1)) w')
  /\ (forall c0 k n d name w,
         Chain.inside c0 k n d w ->
         exists ret m' w',
           TimelineMonitor.exportTimeline (TimelineMonitor.make name c0 false) w
           = Some ((ret, m'), w')
           /\ length (Timeline.getElems ret) = S n
           /\ firstn n (Timeline.getElems ret)
              = Timeline.elems (Run.timelineRef w)
           /\ Timeline.elems (Run.timelineRef w') = [])
  /\ (forall w,
         Chain.idle w ->
         exists ret1 ret2 w',
           ExportInTheMiddleTest.export_in_the_middle_test w
           = Some ((ret1, ret2), w')
           /\ length (Timeline.getElems ret1) = 5%nat
           /\ Timeline.getDepth ret1 = 1
           /\ length (Timeline.getElems ret2) = 6%nat
           /\ Timeline.getDepth ret2 = 0
           /\ Timeline.elems (Run.timelineRef w') = []).
Proof.
  split; [| split].
  - intros c0 k n d name i w Hin Hne.
    destruct (export_inner c0 k n d name i w Hin Hne)
      as (ret & m' & w' & Hexp & _ & Hel & _ & Hsrc & Hin').
    exists ret, m', w'. auto.
  - intros c0 k n d name w Hin.
    destruct (export_outermost c0 k n d name w Hin)
      as (ret & m' & w' & Hexp & _ & Hlen & Hpre & _ & Hclr & _).
    exists ret, m', w'. auto.
  - exact export_in_the_middle_test_run.
Qed.

Lemma export_in_the_middle_witness :
  exists ret1 ret2 w',
    ExportInTheMiddleTest.export_in_the_middle_test
      (Run.mkWorld Timeline.new (fun n => Z.of_nat n * 1000) 0)
    = Some ((ret1, ret2), w')
    /\ length (Timeline.getElems ret1) = 5%nat
    /\ Timeline.getDepth ret1 = 1
    /\ length (Timeline.getElems ret2) = 6%nat
    /\ Timeline.getDepth ret2 = 0
    /\ Timeline.elems (Run.timelineRef w') = [].
Proof.
  apply (proj2 (proj2 export_in_the_middle)
           (Run.mkWorld Timeline.new (fun n => Z.of_nat n * 1000) 0)).
  apply idle_fresh.
Defined.

Example export_in_the_middle_first_copy :
  (fst <$> ExportInTheMiddleTest.func_2 true Timeline.new
             (Run.mkWorld Timeline.new (fun n => Z.of_nat n * 1000) 0))
  = Some (Timeline.make 3
            [TimelineElem.make "operator()" TimelineElem.BEGIN 0 0 0;
             TimelineElem.make "operator()" TimelineElem.BEGIN 1 1 1000;
             TimelineElem.make "func_1_inner" TimelineElem.BEGIN 2 2 2000;
             TimelineElem.make "func_1_inner" TimelineElem.END 2 2 3000;
             TimelineElem.make "operator()" TimelineElem.END 1 1 4000] 1).
Proof. reflexivity. Qed.

(** ** The renderer *)

Lemma string_app_assoc (a b c : string) : (a +:+ b) +:+ c = a +:+ b +:+ c.
Proof.
  induction a as [| x a IH]; [reflexivity |].
  change (String x ((a +:+ b) +:+ c) = String x (a +:+ b +:+ c)).
  f_equal. exact IH.
Qed.

Lemma find_snoc {A : Type} (f : A -> bool) (l : list A) (x : A) :
  List.find f (l ++ [x])
  = match List.find f l with
    | Some y => Some y
    | None => if f x then Some x else None
    end.
Proof.
  induction l as [| a l IH]; simpl; [reflexivity |].
  destruct (f a); [reflexivity | exact IH].
Qed.

Lemma first_begin_None (earlier : list TimelineElem.t) (i : Z) :
  Rendered.first_begin earlier i = None
  <-> (forall b, b ∈ earlier ->
                 TimelineElem.getType b = TimelineElem.BEGIN ->
                 TimelineElem.getId b <> i).
Proof.
  unfold Rendered.first_begin.
  induction earlier as [| a l IH]; simpl.
  - split; [intros _ b Hb; inversion Hb | reflexivity].
  - unfold Rendered.is_begin_of at 1.
    destruct (TimelineElem.getType a) eqn:Ht; simpl.
    + destruct (Z.eqb_spec (TimelineElem.getId a) i) as [Heq | Hne].
      * split; [discriminate |].
        intros H. exfalso. apply (H a); [left | exact Ht | exact Heq].
      * rewrite IH. split.
        -- intros H b Hb Hty. apply elem_of_cons in Hb as [-> | Hb];
             [exact Hne | apply H; assumption].
        -- intros H b Hb. apply H. right. exact Hb.
    + rewrite IH. split.
      * intros H b Hb Hty. apply elem_of_cons in Hb as [-> | Hb];
          [congruence | apply H; assumption].
      * intros H b Hb. apply H. right. exact Hb.
Qed.

Lemma line_orphan (earlier : list TimelineElem.t) (e : TimelineElem.t) :
  Rendered.line earlier e = None <-> Rendered.orphan_end earlier e.
Proof.
  unfold Rendered.line, Rendered.orphan_end.
  destruct (TimelineElem.getType e) eqn:Ht.
  - split; [discriminate | intros [H _]; discriminate].
  - rewrite <- first_begin_None.
    destruct (Rendered.first_begin earlier (TimelineElem.getId e)); simpl.
    + split; [discriminate | intros [_ H]; discriminate].
    + split; [intros _; split; reflexivity | reflexivity].
Qed.

Lemma lines_app (earlier l1 l2 : list TimelineElem.t) :
  Rendered.lines earlier (l1 ++ l2)
  = Rendered.lines earlier l1 ++ Rendered.lines (earlier ++ l1) l2.
Proof.
  revert earlier. induction l1 as [| e l1 IH]; intros earlier; simpl.
  - rewrite app_nil_r. reflexivity.
  - rewrite IH, <- app_assoc. simpl. rewrite <- app_assoc. reflexivity.
Qed.

Lemma join_endl_snoc (ls : list string) (x : string) :
  Rendered.join_endl (ls ++ [x])
  = match ls with
    | [] => x
    | _ :: _ => Rendered.join_endl ls +:+ TimelineDump.endl +:+ x
    end.
Proof.
  induction ls as [| a ls IH]; [reflexivity |].
  destruct ls as [| b ls].
  - reflexivity.
  - change (Rendered.join_endl ((a :: b :: ls) ++ [x]))
      with (a +:+ TimelineDump.endl +:+ Rendered.join_endl ((b :: ls) ++ [x])).
    rewrite IH.
    change (Rendered.join_endl (a :: b :: ls))
      with (a +:+ TimelineDump.endl +:+ Rendered.join_endl (b :: ls)).
    rewrite !string_app_assoc. reflexivity.
Qed.

Lemma flush_endl_snoc done st (x : string) :
  Rendered.dump_inv done st ->
  TimelineDump.flush_endl st +:+ x
  = Rendered.join_endl (Rendered.lines [] done ++ [x]).
Proof.
  intros (Hret & Hnl & _). unfold TimelineDump.flush_endl.
  rewrite join_endl_snoc, Hnl, Hret.
  destruct (Rendered.lines [] done); [reflexivity |].
  apply string_app_assoc.
Qed.

Lemma loop_body_inv done st e :
  Rendered.dump_inv done st ->
  Rendered.dump_inv (done ++ [e]) (TimelineDump.loop_body st e).
Proof.
  intros Hinv. pose proof Hinv as (Hret & Hnl & Hmap).
  unfold Rendered.dump_inv. rewrite lines_app. cbn [Rendered.lines].
  rewrite app_nil_r.
  unfold TimelineDump.loop_body, Rendered.line.
  destruct (TimelineElem.getType e) eqn:Ht.
  - cbn [option_list TimelineDump.ret TimelineDump.need_endl
         TimelineDump.begin_elems].
    split; [apply flush_endl_snoc, Hinv |].
    split; [destruct (Rendered.lines [] done); reflexivity |].
    intros i. unfold Rendered.first_begin. rewrite find_snoc.
    fold (Rendered.first_begin done i). rewrite <- Hmap.
    unfold TimelineDump.map_insert, Rendered.is_begin_of. rewrite Ht. simpl.
    destruct (TimelineDump.begin_elems st !! TimelineElem.getId e) eqn:Hk.
    + destruct (Z.eqb_spec (TimelineElem.getId e) i) as [<- | Hne].
      * rewrite Hk. reflexivity.
      * destruct (TimelineDump.begin_elems st !! i); reflexivity.
    + destruct (Z.eqb_spec (TimelineElem.getId e) i) as [<- | Hne].
      * rewrite lookup_insert_eq, Hk. reflexivity.
      * rewrite lookup_insert_ne by exact Hne.
        destruct (TimelineDump.begin_elems st !! i); reflexivity.
  - rewrite <- Hmap.
    destruct (TimelineDump.begin_elems st !! TimelineElem.getId e) as [b |].
    + cbn [mbind option_bind option_list TimelineDump.ret
           TimelineDump.need_endl TimelineDump.begin_elems].
      split; [apply flush_endl_snoc, Hinv |].
      split; [destruct (Rendered.lines [] done); reflexivity |].
      intros i. unfold Rendered.first_begin. rewrite find_snoc.
      fold (Rendered.first_begin done i). rewrite <- Hmap.
      unfold Rendered.is_begin_of. rewrite Ht. simpl.
      destruct (TimelineDump.begin_elems st !! i); reflexivity.
    + cbn [mbind option_bind option_list]. rewrite app_nil_r.
      split; [exact Hret |]. split; [exact Hnl |].
      intros i. unfold Rendered.first_begin. rewrite find_snoc.
      fold (Rendered.first_begin done i). rewrite <- Hmap.
      unfold Rendered.is_begin_of. rewrite Ht. simpl.
      destruct (TimelineDump.begin_elems st !! i); reflexivity.
Qed.

Lemma foldl_loop_body_inv l done st :
  Rendered.dump_inv done st ->
  Rendered.dump_inv (done ++ l) (foldl TimelineDump.loop_body st l).
Proof.
  revert done st. induction l as [| e l IH]; intros done st Hinv; simpl.
  - rewrite app_nil_r. exact Hinv.
  - replace (done ++ e :: l) with ((done ++ [e]) ++ l)
      by (rewrite <- app_assoc; reflexivity).
    apply IH, loop_body_inv, Hinv.
Qed.

Lemma toString_lines (src : Timeline.t) :
  TimelineDump.toString src
  = Rendered.join_endl (Rendered.lines [] (Timeline.getElems src)).
Proof.
  unfold TimelineDump.toString. cbn zeta.
  apply (foldl_loop_body_inv (Timeline.getElems src) []).
  split; [reflexivity |]. split; [reflexivity |].
  intros i. apply lookup_empty.
Qed.

(** C8.  The text [toString] returns is the lines contributed by the events
    in order, joined by line ends.  The contribution of an event is
    determined by the events before it: nothing for an End event with no
    Begin event of the same id before it, exactly one line for every other
    event.  The text depends on the event sequence only, and the timeline is
    an input that is not changed. *)
Theorem toString_spec (src : Timeline.t) :
  TimelineDump.toString src
  = Rendered.join_endl (Rendered.lines [] (Timeline.getElems src))
  /\ (forall pre e post,
         Timeline.getElems src = pre ++ e :: post ->
         Rendered.lines [] (Timeline.getElems src)
         = Rendered.lines [] pre
           ++ option_list (Rendered.line pre e)
           ++ Rendered.lines (pre ++ [e]) post
         /\ (Rendered.orphan_end pre e ->
             option_list (Rendered.line pre e) = [])
         /\ (~ Rendered.orphan_end pre e ->
             exists text, option_list (Rendered.line pre e) = [text]))
  /\ (forall src',
         Timeline.getElems src' = Timeline.getElems src ->
         TimelineDump.toString src' = TimelineDump.toString src).
Proof.
  split; [apply toString_lines |]. split.
  - intros pre e post Hsplit. split; [| split].
    + rewrite Hsplit, lines_app. reflexivity.
    + intros Ho. apply line_orphan in Ho. rewrite Ho. reflexivity.
    + intros Hno. destruct (Rendered.line pre e) as [text |] eqn:Hl.
      * exists text. reflexivity.
      * exfalso. apply Hno, line_orphan, Hl.
  - intros src' Heq. rewrite !toString_lines, Heq. reflexivity.
Qed.

Example toString_skips_orphan_end :
  TimelineDump.toString
    (Timeline.make 2
       [TimelineElem.make "stray" TimelineElem.END 7 0 1000;
        TimelineElem.make "f" TimelineElem.BEGIN 0 0 5000;
        TimelineElem.make "g" TimelineElem.BEGIN 1 1 6000;
        TimelineElem.make "g" TimelineElem.END 1 1 8000;
        TimelineElem.make "f" TimelineElem.END 0 0 9000] 0)
  = "f, 5" +:+ TimelineDump.endl
    +:+ " g, 6" +:+ TimelineDump.endl
    +:+ " g, 8, 2" +:+ TimelineDump.endl
    +:+ "f, 9, 4".
Proof. reflexivity. Qed.

(** * Further properties of the code *)

(** ** Arbitrary call sequences on one timeline *)

Lemma wrap32_add_idemp a b : wrap32 (wrap32 a + b) = wrap32 (a + b).
Proof. unfold wrap32. apply Zplus_mod_idemp_l. Qed.

Lemma exec_counters ops : forall tl,
  exists tl',
    Nesting.exec ops tl = Some tl'
    /\ Timeline.eventIdCounter tl' = Timeline.eventIdCounter tl
    /\ wrap32 (Timeline.lastDepth tl')
       = wrap32 (Timeline.lastDepth tl + Ops.net ops).
Proof.
  induction ops as [| o ops IH]; intros tl.
  - exists tl. split; [reflexivity |]. split; [reflexivity |].
    simpl. f_equal. lia.
  - destruct o as [name id now | name id now]; cbn [Nesting.exec Nesting.step].
    + cbn [mbind option_bind].
      destruct (IH (Timeline.pushBegin tl name id now)) as (tl' & He & Hc & Hd).
      exists tl'. split; [exact He |]. split; [exact Hc |].
      rewrite Hd. cbn [Timeline.pushBegin Timeline.lastDepth Ops.net].
      rewrite wrap32_add_idemp. f_equal. lia.
    + rewrite pushEnd_eq. cbn [mbind option_bind].
      match goal with |- context [Nesting.exec ops ?x] => set (tl1 := x) end.
      destruct (IH tl1) as (tl' & He & Hc & Hd).
      exists tl'. split; [exact He |]. split; [exact Hc |].
      rewrite Hd. subst tl1. cbn [Timeline.lastDepth Ops.net].
      rewrite wrap32_add_idemp. f_equal. lia.
Qed.

Lemma exec_keeps_range ops tl tl' :
  ops <> [] -> Nesting.exec ops tl = Some tl' ->
  is_uint32 (Timeline.lastDepth tl').
Proof.
  revert tl. induction ops as [| o ops IH]; intros tl Hne He; [done |].
  cbn [Nesting.exec] in He.
  destruct (Nesting.step tl o) as [tl1 |] eqn:Hs; [| discriminate].
  cbn [mbind option_bind] in He.
  destruct ops as [| o' ops'].
  - injection He as <-.
    destruct o as [name id now | name id now]; cbn [Nesting.step] in Hs.
    + injection Hs as <-. apply wrap32_range.
    + rewrite pushEnd_eq in Hs. injection Hs as <-. apply wrap32_range.
  - apply (IH tl1); [discriminate | exact He].
Qed.

(** X1.  Any sequence of [pushBegin]/[pushEnd] calls, nested or not, is
    defined; it leaves the id issuer alone, and the depth counter ends at
    the start value plus the Begins minus the Ends, modulo 2^32, whatever
    resets happened on the way. *)
Theorem exec_depth_accounting (ops : list Nesting.op) (tl : Timeline.t) :
  is_uint32 (Timeline.lastDepth tl) ->
  exists tl',
    Nesting.exec ops tl = Some tl'
    /\ Timeline.eventIdCounter tl' = Timeline.eventIdCounter tl
    /\ Timeline.getDepth tl' = wrap32 (Timeline.lastDepth tl + Ops.net ops).
Proof.
  intros Hd. destruct (exec_counters ops tl) as (tl' & He & Hc & Hw).
  exists tl'. split; [exact He |]. split; [exact Hc |].
  unfold Timeline.getDepth. rewrite <- Hw. symmetry. apply wrap32_small.
  destruct ops as [| o ops].
  - injection He as <-. exact Hd.
  - apply (exec_keeps_range (o :: ops) tl tl'); [discriminate | exact He].
Qed.

Lemma exec_depth_accounting_witness :
  exists tl',
    Nesting.exec [Nesting.OpEnd "x" 5 10; Nesting.OpBegin "a" 0 20;
                  Nesting.OpBegin "b" 1 30; Nesting.OpEnd "a" 0 40]
      Timeline.new = Some tl'
    /\ Timeline.eventIdCounter tl' = Timeline.eventIdCounter Timeline.new
    /\ Timeline.getDepth tl'
       = wrap32 (Timeline.lastDepth Timeline.new
                 + Ops.net [Nesting.OpEnd "x" 5 10; Nesting.OpBegin "a" 0 20;
                            Nesting.OpBegin "b" 1 30; Nesting.OpEnd "a" 0 40]).
Proof.
  apply (exec_depth_accounting
           [Nesting.OpEnd "x" 5 10; Nesting.OpBegin "a" 0 20;
            Nesting.OpBegin "b" 1 30; Nesting.OpEnd "a" 0 40] Timeline.new).
  unfold is_uint32. simpl. lia.
Defined.

Lemma exec_no_reset ops : forall tl f,
  TimelineElem.getId <$> head (Timeline.elems tl) = Some f ->
  Forall (fun o => Ops.closes f o = false) ops ->
  exists tl' added,
    Nesting.exec ops tl = Some tl'
    /\ Timeline.elems tl' = Timeline.elems tl ++ added
    /\ TimelineElem.getName <$> added = Ops.op_name <$> ops
    /\ TimelineElem.getType <$> added = Ops.op_type <$> ops
    /\ TimelineElem.getId <$> added = Ops.op_id <$> ops
    /\ TimelineElem.getTimestamp <$> added = Ops.op_time <$> ops.
Proof.
  induction ops as [| o ops IH]; intros tl f Hh Hall.
  - exists tl, []. rewrite app_nil_r. repeat split.
  - apply Forall_cons in Hall as [Ho Hall].
    destruct o as [name id now | name id now]; cbn [Nesting.exec Nesting.step].
    + cbn [mbind option_bind].
      destruct (IH (Timeline.pushBegin tl name id now) f)
        as (tl' & added & He & Hel & Hn & Ht & Hi & Hts).
      { apply head_snoc_inside, Hh. }
      { exact Hall. }
      eexists tl', (_ :: added). split; [exact He |].
      split; [rewrite Hel; cbn [Timeline.pushBegin Timeline.elems];
              rewrite <- app_assoc; reflexivity |].
      cbn [fmap list_fmap Ops.op_name Ops.op_type Ops.op_id Ops.op_time].
      repeat split; f_equal; assumption.
    + rewrite pushEnd_eq. cbn [mbind option_bind].
      cbn [Ops.closes] in Ho. apply Z.eqb_neq in Ho.
      rewrite bool_decide_eq_false_2.
      2:{ rewrite (head_snoc_inside _ _ f Hh). congruence. }
      match goal with |- context [Nesting.exec ops ?x] => set (tl1 := x) end.
      destruct (IH tl1 f) as (tl' & added & He & Hel & Hn & Ht & Hi & Hts).
      { subst tl1. apply head_snoc_inside, Hh. }
      { exact Hall. }
      eexists tl', (_ :: added). split; [exact He |].
      split; [rewrite Hel; subst tl1; cbn [Timeline.elems];
              rewrite <- app_assoc; reflexivity |].
      cbn [fmap list_fmap Ops.op_name Ops.op_type Ops.op_id Ops.op_time].
      repeat split; f_equal; assumption.
Qed.

(** X2.  While the id of the first stored event is not closed, nothing is
    cleared: every call appends exactly one event at the back, in call
    order, with the call's name, kind, id and time; the events stored before
    stay in front. *)
Theorem exec_accumulates (ops : list Nesting.op) (tl : Timeline.t) (f : Z) :
  TimelineElem.getId <$> head (Timeline.elems tl) = Some f ->
  Forall (fun o => Ops.closes f o = false) ops ->
  exists tl' added,
    Nesting.exec ops tl = Some tl'
    /\ Timeline.getElems tl' = Timeline.getElems tl ++ added
    /\ length (Timeline.getElems tl')
       = (length (Timeline.getElems tl) + length ops)%nat
    /\ TimelineElem.getName <$> added = Ops.op_name <$> ops
    /\ TimelineElem.getType <$> added = Ops.op_type <$> ops
    /\ TimelineElem.getId <$> added = Ops.op_id <$> ops
    /\ TimelineElem.getTimestamp <$> added = Ops.op_time <$> ops.
Proof.
  intros Hh Hall.
  destruct (exec_no_reset ops tl f Hh Hall)
    as (tl' & added & He & Hel & Hn & Ht & Hi & Hts).
  exists tl', added. unfold Timeline.getElems.
  split; [exact He |]. split; [exact Hel |].
  split; [| auto].
  rewrite Hel, length_app. f_equal.
  rewrite <- (length_fmap TimelineElem.getId added), Hi.
  apply length_fmap.
Qed.

Lemma exec_accumulates_witness :
  exists tl' added,
    Nesting.exec [Nesting.OpBegin "t1" 1 30; Nesting.OpBegin "t2" 2 40;
                  Nesting.OpEnd "t1" 1 50; Nesting.OpEnd "t2" 2 60]
      (Timeline.make 1
         [TimelineElem.make "top" TimelineElem.BEGIN 0 0 10;
          TimelineElem.make "top" TimelineElem.END 0 0 20] 0) = Some tl'
    /\ Timeline.getElems tl'
       = [TimelineElem.make "top" TimelineElem.BEGIN 0 0 10;
          TimelineElem.make "top" TimelineElem.END 0 0 20] ++ added
    /\ length (Timeline.getElems tl') = 6%nat
    /\ TimelineElem.getName <$> added = ["t1"; "t2"; "t1"; "t2"]
    /\ TimelineElem.getType <$> added
       = [TimelineElem.BEGIN; TimelineElem.BEGIN;
          TimelineElem.END; TimelineElem.END]
    /\ TimelineElem.getId <$> added = [1; 2; 1; 2]
    /\ TimelineElem.getTimestamp <$> added = [30; 40; 50; 60].
Proof.
  apply (exec_accumulates
           [Nesting.OpBegin "t1" 1 30; Nesting.OpBegin "t2" 2 40;
            Nesting.OpEnd "t1" 1 50; Nesting.OpEnd "t2" 2 60]
           (Timeline.make 1
              [TimelineElem.make "top" TimelineElem.BEGIN 0 0 10;
               TimelineElem.make "top" TimelineElem.END 0 0 20] 0) 0).
  - reflexivity.
  - repeat constructor.
Defined.

(** X3.  A chain opened on an empty sequence and closed with the id it was
    opened with: if no call in between closes that id, the copy exported at
    the close holds the opening Begin event first, one event per call in
    between, and the closing End event last, and the source sequence is
    empty afterwards, for [pushEnd] as well. *)
Theorem chain_close_exports_all
  (tl : Timeline.t) (name name' : string) (i : Z) (t_begin t_end : time_point)
  (body : list Nesting.op) :
  Timeline.elems tl = [] ->
  Forall (fun o => Ops.closes i o = false) body ->
  exists tl2 ret tl3,
    Nesting.exec (Nesting.OpBegin name i t_begin :: body) tl = Some tl2
    /\ Timeline.pushEndAndExport tl2 name' i t_end = Some (ret, tl3)
    /\ Timeline.pushEnd tl2 name' i t_end = Some tl3
    /\ length (Timeline.getElems ret) = (length body + 2)%nat
    /\ head (Timeline.getElems ret)
       = Some (TimelineElem.make name TimelineElem.BEGIN i
                 (Timeline.lastDepth tl) t_begin)
    /\ last (Timeline.getElems ret)
       = Some (TimelineElem.make name' TimelineElem.END i
                 (Timeline.getDepth ret) t_end)
    /\ Timeline.getElems tl3 = [].
Proof.
  intros Hempty Hall.
  destruct (exec_no_reset body (Timeline.pushBegin tl name i t_begin) i)
    as (tl2 & added & He & Hel & _ & _ & Hi & _).
  { cbn [Timeline.pushBegin Timeline.elems]. rewrite Hempty. reflexivity. }
  { exact Hall. }
  cbn [Timeline.pushBegin Timeline.elems] in Hel. rewrite Hempty in Hel.
  eexists tl2, _, _.
  split; [exact He |].
  split; [apply pushEndAndExport_eq |].
  split; [apply pushEnd_eq |].
  unfold Timeline.getElems, Timeline.getDepth.
  cbn [Timeline.elems Timeline.lastDepth]. rewrite Hel.
  split.
  { rewrite !length_app. cbn [length].
    rewrite <- (length_fmap TimelineElem.getId added), Hi, length_fmap. lia. }
  split; [reflexivity |].
  split; [apply last_snoc |].
  rewrite bool_decide_eq_true_2 by reflexivity. reflexivity.
Qed.

Lemma chain_close_exports_all_witness :
  exists tl2 ret tl3,
    Nesting.exec [Nesting.OpBegin "f" 4 10; Nesting.OpBegin "g" 5 20;
                  Nesting.OpEnd "g" 5 30] (Timeline.make 4 [] 0) = Some tl2
    /\ Timeline.pushEndAndExport tl2 "f" 4 40 = Some (ret, tl3)
    /\ Timeline.pushEnd tl2 "f" 4 40 = Some tl3
    /\ length (Timeline.getElems ret) = 4%nat
    /\ head (Timeline.getElems ret)
       = Some (TimelineElem.make "f" TimelineElem.BEGIN 4 0 10)
    /\ last (Timeline.getElems ret)
       = Some (TimelineElem.make "f" TimelineElem.END 4
                 (Timeline.getDepth ret) 40)
    /\ Timeline.getElems tl3 = [].
Proof.
  apply (chain_close_exports_all (Timeline.make 4 [] 0) "f" "f" 4 10 40
           [Nesting.OpBegin "g" 5 20; Nesting.OpEnd "g" 5 30]).
  - reflexivity.
  - repeat constructor.
Defined.

(** X4.  On an empty sequence every End event is its own first element: a
    run of [pushEnd] calls, with any ids, leaves the sequence empty (only
    the depth counter moves). *)
Theorem ends_on_empty_leave_no_event (ops : list Nesting.op) (tl : Timeline.t) :
  Timeline.elems tl = [] ->
  Forall (fun o => Ops.is_end o = true) ops ->
  exists tl',
    Nesting.exec ops tl = Some tl'
    /\ Timeline.getElems tl' = []
    /\ Timeline.eventIdCounter tl' = Timeline.eventIdCounter tl.
Proof.
  revert tl. induction ops as [| o ops IH]; intros tl Hempty Hall.
  - exists tl. auto.
  - apply Forall_cons in Hall as [Ho Hall].
    destruct o as [name id now | name id now]; [discriminate Ho |].
    cbn [Nesting.exec Nesting.step]. rewrite pushEnd_eq, Hempty.
    cbn [app head fmap option_fmap option_map TimelineElem.getId
         TimelineElem.id].
    rewrite bool_decide_eq_true_2 by reflexivity.
    cbn [mbind option_bind].
    match goal with |- context [Nesting.exec ops ?x] => set (tl1 := x) end.
    destruct (IH tl1) as (tl' & He & Hel & Hc); [reflexivity | exact Hall |].
    exists tl'. auto.
Qed.

Lemma ends_on_empty_leave_no_event_witness :
  exists tl',
    Nesting.exec [Nesting.OpEnd "a" 3 10; Nesting.OpEnd "b" 9 20]
      (Timeline.make 12 [] 2) = Some tl'
    /\ Timeline.getElems tl' = []
    /\ Timeline.eventIdCounter tl' = 12.
Proof.
  apply (ends_on_empty_leave_no_event
           [Nesting.OpEnd "a" 3 10; Nesting.OpEnd "b" 9 20]
           (Timeline.make 12 [] 2)).
  - reflexivity.
  - repeat constructor.
Defined.

(** ** The id issuer *)

Lemma issueId_iter_counter (k : nat) (tl : Timeline.t) :
  is_uint64 (Timeline.eventIdCounter tl) ->
  Timeline.eventIdCounter (Nat.iter k (fun t => (Timeline.issueId t).2) tl)
  = wrap64 (Timeline.eventIdCounter tl + Z.of_nat k).
Proof.
  intros Hc. set (f := fun t => (Timeline.issueId t).2).
  induction k as [| k IH].
  - simpl. rewrite Z.add_0_r. symmetry. apply wrap64_small, Hc.
  - rewrite Nat.iter_succ. unfold f at 1.
    cbn [Timeline.issueId snd Timeline.eventIdCounter].
    rewrite IH, wrap64_succ_add. f_equal. lia.
Qed.

Lemma wrap64_add_inj c j k :
  0 <= j < k -> k < 2 ^ 64 -> wrap64 (c + j) <> wrap64 (c + k).
Proof.
  unfold wrap64. intros Hj Hk Heq.
  pose proof (Z.div_mod (c + j) (2 ^ 64) ltac:(lia)) as Ej.
  pose proof (Z.div_mod (c + k) (2 ^ 64) ltac:(lia)) as Ek.
  rewrite Heq in Ej.
  assert (Hd : k - j = 2 ^ 64 * ((c + k) / 2 ^ 64 - (c + j) / 2 ^ 64)) by lia.
  assert (0 < (c + k) / 2 ^ 64 - (c + j) / 2 ^ 64) by nia.
  nia.
Qed.

(** X5.  [issueId] hands out consecutive ids modulo 2^64 and touches
    nothing else: the id of the call number k (from 0) is the counter plus
    k, and two calls fewer than 2^64 apart never get the same id. *)
Theorem issueId_distinct (j k : nat) (tl : Timeline.t) :
  is_uint64 (Timeline.eventIdCounter tl) ->
  (j < k)%nat -> Z.of_nat k < 2 ^ 64 ->
  let after n := Nat.iter n (fun t => (Timeline.issueId t).2) tl in
  (Timeline.issueId (after k)).1
  = wrap64 (Timeline.eventIdCounter tl + Z.of_nat k)
  /\ (Timeline.issueId (after j)).1 <> (Timeline.issueId (after k)).1
  /\ Timeline.getElems (Timeline.issueId (after k)).2 = Timeline.getElems tl
  /\ Timeline.getDepth (Timeline.issueId (after k)).2 = Timeline.getDepth tl.
Proof.
  intros Hc Hjk Hk after. subst after. cbn beta.
  cbn [Timeline.issueId fst].
  rewrite !issueId_iter_counter by exact Hc.
  split; [reflexivity |].
  split; [apply wrap64_add_inj; lia |].
  unfold Timeline.getElems, Timeline.getDepth.
  cbn [snd Timeline.elems Timeline.lastDepth].
  clear Hjk Hk. set (f := fun t => (Timeline.issueId t).2).
  induction k as [| k IH]; [split; reflexivity |].
  rewrite Nat.iter_succ. unfold f at 1 3.
  cbn [Timeline.issueId snd Timeline.elems Timeline.lastDepth].
  exact IH.
Qed.

Lemma issueId_distinct_witness :
  let after n :=
    Nat.iter n (fun t => (Timeline.issueId t).2) (Timeline.make (2 ^ 64 - 2) [] 0) in
  (Timeline.issueId (after 3%nat)).1 = wrap64 (2 ^ 64 - 2 + Z.of_nat 3)
  /\ (Timeline.issueId (after 1%nat)).1 <> (Timeline.issueId (after 3%nat)).1
  /\ Timeline.getElems (Timeline.issueId (after 3%nat)).2 = []
  /\ Timeline.getDepth (Timeline.issueId (after 3%nat)).2 = 0.
Proof.
  apply (issueId_distinct 1 3 (Timeline.make (2 ^ 64 - 2) [] 0)).
  - unfold is_uint64. simpl. lia.
  - lia.
  - simpl. lia.
Defined.

(** ** One guard on an idle timeline *)

Lemma idle_world (w : Run.World) :
  Chain.idle w ->
  w = Run.mkWorld
        (Timeline.make (Timeline.eventIdCounter (Run.timelineRef w)) [] 0)
        (Run.clock w) (Run.clock_reads w).
Proof.
  destruct w as [[c l d] clk r]. unfold Chain.idle. simpl.
  intros (-> & -> & _). reflexivity.
Qed.

(** X6.  A guard created while no chain is open and exported at once: the
    copy holds exactly its Begin and its End event, with the same name, the
    same id and depth 0, stamped with two successive clock readings; the
    dump of the copy is the Begin line and the End line with the difference
    of the two epochs; the source is idle again with one id used.  Left to
    its destructor instead, the guard leaves the same idle state. *)
Theorem single_scope_round_trip (name : string) (w : Run.World) :
  Chain.idle w ->
  let c := Timeline.eventIdCounter (Run.timelineRef w) in
  let t0 := Run.clock w (Run.clock_reads w) in
  let t1 := Run.clock w (S (Run.clock_reads w)) in
  let b := TimelineElem.make name TimelineElem.BEGIN c 0 t0 in
  let e := TimelineElem.make name TimelineElem.END c 0 t1 in
  let after :=
    Run.mkWorld (Timeline.make (wrap64 (c + 1)) [] 0)
      (Run.clock w) (S (S (Run.clock_reads w))) in
  (m ← TimelineMonitor.new name; TimelineMonitor.exportTimeline m) w
  = Some ((Timeline.make (wrap64 (c + 1)) [b; e] 0,
           TimelineMonitor.make name c true), after)
  /\ (m ← TimelineMonitor.new name; TimelineMonitor.destroy m) w
     = Some (TimelineMonitor.make name c true, after)
  /\ Chain.idle after
  /\ TimelineDump.toString (Timeline.make (wrap64 (c + 1)) [b; e] 0)
     = (name +:+ ", " +:+ TimelineDump.show_u64 (TimelineElem.getEpochUs b))
       +:+ TimelineDump.endl
       +:+ (name +:+ ", "
            +:+ TimelineDump.show_u64 (TimelineElem.getEpochUs e) +:+ ", "
            +:+ TimelineDump.show_u64
                  (wrap64 (TimelineElem.getEpochUs e
                           - TimelineElem.getEpochUs b))).
Proof.
  intros Hidle c t0 t1 b e after.
  pose proof (idle_world w Hidle) as Hw. fold c in Hw.
  assert (Hexp :
    (m ← TimelineMonitor.new name; TimelineMonitor.exportTimeline m) w
    = Some ((Timeline.make (wrap64 (c + 1)) [b; e] 0,
             TimelineMonitor.make name c true), after)).
  { rewrite Hw at 1. rewrite (run_bind _ _ _ _ _ (new_eq name _)).
    rewrite exportTimeline_eq.
    cbn [Run.timelineRef Run.clock Run.clock_reads Timeline.elems
         Timeline.eventIdCounter Timeline.lastDepth TimelineMonitor.myId
         TimelineMonitor.myName app head fmap option_fmap option_map
         TimelineElem.getId TimelineElem.id].
    rewrite bool_decide_eq_true_2 by reflexivity. reflexivity. }
  assert (Hdes :
    (m ← TimelineMonitor.new name; TimelineMonitor.destroy m) w
    = Some (TimelineMonitor.make name c true, after)).
  { rewrite Hw at 1. rewrite (run_bind _ _ _ _ _ (new_eq name _)).
    rewrite destroy_eq by reflexivity.
    cbn [Run.timelineRef Run.clock Run.clock_reads Timeline.elems
         Timeline.eventIdCounter Timeline.lastDepth TimelineMonitor.myId
         TimelineMonitor.myName app head fmap option_fmap option_map
         TimelineElem.getId TimelineElem.id].
    rewrite bool_decide_eq_true_2 by reflexivity. reflexivity. }
  split; [exact Hexp |]. split; [exact Hdes |].
  split.
  { unfold Chain.idle, after. cbn [Run.timelineRef Timeline.elems
      Timeline.lastDepth Timeline.eventIdCounter].
    repeat split; apply wrap64_range. }
  rewrite toString_lines.
  unfold Timeline.getElems. cbn [Timeline.elems Rendered.lines].
  unfold Rendered.line, Rendered.first_begin, Rendered.is_begin_of.
  cbn [b e TimelineElem.getType TimelineElem.type TimelineElem.getId
       TimelineElem.id app List.find TimelineElem.Type_eqb andb].
  rewrite Z.eqb_refl. reflexivity.
Qed.

Lemma single_scope_round_trip_witness :
  let w := Run.mkWorld (Timeline.make 7 [] 0) (fun n => Z.of_nat n * 1500) 4 in
  let b := TimelineElem.make "f" TimelineElem.BEGIN 7 0 6000 in
  let e := TimelineElem.make "f" TimelineElem.END 7 0 7500 in
  let after := Run.mkWorld (Timeline.make 8 [] 0) (Run.clock w) 6 in
  (m ← TimelineMonitor.new "f"; TimelineMonitor.exportTimeline m) w
  = Some ((Timeline.make 8 [b; e] 0, TimelineMonitor.make "f" 7 true), after)
  /\ (m ← TimelineMonitor.new "f"; TimelineMonitor.destroy m) w
     = Some (TimelineMonitor.make "f" 7 true, after)
  /\ Chain.idle after
  /\ TimelineDump.toString (Timeline.make 8 [b; e] 0)
     = "f, 6" +:+ TimelineDump.endl +:+ "f, 7, 1".
Proof.
  intros w b e after.
  apply (single_scope_round_trip "f" w).
  unfold Chain.idle, is_uint64. simpl. repeat split; lia.
Defined.

(** ** The hierarchical scenario can be repeated *)

(** X7.  The hierarchical scenario leaves the thread's timeline as it found
    it, with no chain open: the sequence is empty, the depth counter is 0,
    and the id issuer has moved on by the 1 + B + A*B ids of the run (modulo
    2^64).  So every later run meets the same precondition. *)
Theorem hierarchical_test_leaves_idle (A B : nat) (w : Run.World) :
  Chain.idle w ->
  Z.of_nat (1 + B + A * B) <= 2 ^ 64 ->
  exists ret w',
    HierarchicalTest.hierarchical_test A B w = Some (ret, w')
    /\ Chain.idle w'
    /\ Timeline.eventIdCounter (Run.timelineRef w')
       = wrap64 (Timeline.eventIdCounter (Run.timelineRef w)
                 + Z.of_nat (1 + B + A * B))
    /\ Timeline.eventIdCounter ret
       = Timeline.eventIdCounter (Run.timelineRef w').
Proof.
  intros Hidle Hids.
  unfold HierarchicalTest.hierarchical_test, HierarchicalTest.func_2.
  destruct (new_idle "operator()" w Hidle) as (w1 & Hnew & H1).
  set (c0 := Timeline.eventIdCounter (Run.timelineRef w)) in *.
  assert (Hc0 : is_uint64 c0) by apply Hidle.
  rewrite (run_bind _ _ _ _ _ Hnew).
  destruct (for_loop_inv
              (fun i => Chain.inside c0 (1 + i * (A + 1)) (1 + i * (2 * A + 2)) 1)
              (HierarchicalTest.func_1 A) B) with (w := w1)
    as (w2 & Hloop & H2).
  { intros i wi Hi Hini.
    destruct (hier_func_1_inside A c0 (1 + i * (A + 1)) (1 + i * (2 * A + 2)) 1
                wi Hini) as (wi' & Hrun & Hini').
    - lia.
    - assert ((1 + i * (A + 1) + A < 1 + B + A * B)%nat) by nia. lia.
    - exact Hc0.
    - unfold is_uint32. lia.
    - exists wi'. split; [exact Hrun |].
      replace (1 + S i * (A + 1))%nat with (1 + i * (A + 1) + A + 1)%nat by lia.
      replace (1 + S i * (2 * A + 2))%nat
        with (1 + i * (2 * A + 2) + 2 * A + 2)%nat by lia.
      exact Hini'. }
  { exact H1. }
  rewrite (run_bind _ _ _ _ _ Hloop).
  pose proof H2 as (_ & _ & Hctr & _).
  assert (Hret : forall ret m' w3,
    TimelineMonitor.exportTimeline
      (TimelineMonitor.make "operator()" c0 false) w2 = Some ((ret, m'), w3) ->
    Timeline.eventIdCounter ret = Timeline.eventIdCounter (Run.timelineRef w2)).
  { intros ret m' w3. rewrite exportTimeline_eq. intros [= <- _ _]. reflexivity. }
  destruct (export_outermost c0 _ _ 1 "operator()" w2 H2)
    as (ret & m' & w3 & Hexp & Hdone & _ & _ & _ & Hclr & Hdep & Hcnt).
  rewrite (run_bind _ _ _ _ _ Hexp). cbn beta iota.
  rewrite (run_bind _ _ _ _ _ (destroy_done m' w3 Hdone)).
  exists ret, w3. split; [reflexivity |].
  split.
  { unfold Chain.idle. rewrite Hclr, Hdep, Hcnt, Hctr.
    repeat split; apply wrap64_range. }
  split.
  { rewrite Hcnt, Hctr. f_equal. f_equal. lia. }
  rewrite (Hret ret m' w3 Hexp), Hcnt. reflexivity.
Qed.

Lemma hierarchical_test_leaves_idle_witness :
  exists ret w',
    HierarchicalTest.hierarchical_test 5 10
      (Run.mkWorld (Timeline.make 61 [] 0) (fun n => Z.of_nat n * 1000) 0)
    = Some (ret, w')
    /\ Chain.idle w'
    /\ Timeline.eventIdCounter (Run.timelineRef w')
       = wrap64 (61 + Z.of_nat (1 + 10 + 5 * 10))
    /\ Timeline.eventIdCounter ret
       = Timeline.eventIdCounter (Run.timelineRef w').
Proof.
  apply (hierarchical_test_leaves_idle 5 10
           (Run.mkWorld (Timeline.make 61 [] 0) (fun n => Z.of_nat n * 1000) 0)).
  - unfold Chain.idle, is_uint64. simpl. repeat split; lia.
  - simpl. lia.
Defined.

(** ** The elapsed time as the clock moves *)

Lemma getElapsedUs_eq (m : TimelineMonitor.t) (w : Run.World) te rest :
  Timeline.getElems (Run.timelineRef w) = te :: rest ->
  TimelineMonitor.getElapsedUs m w
  = Some (wrap64 (TimelineElem.getEpochUs_of (Run.clock w (Run.clock_reads w))
                  - TimelineElem.getEpochUs te),
          Run.mkWorld (Run.timelineRef w) (Run.clock w) (S (Run.clock_reads w))).
Proof.
  intros He.
  unfold TimelineMonitor.getElapsedUs, mbind, Run.M_bind, Run.get_timeline.
  rewrite He. reflexivity.
Qed.

Lemma getEpochUs_of_nonneg (tp : time_point) :
  0 <= tp < 2 ^ 63 -> TimelineElem.getEpochUs_of tp = tp / 1000.
Proof.
  intros H. unfold TimelineElem.getEpochUs_of, ticks_per_us.
  rewrite Z.quot_div_nonneg by lia.
  apply wrap64_small. unfold is_uint64.
  split; [apply Z.div_pos; lia |].
  apply Z.div_lt_upper_bound; lia.
Qed.

(** X8.  Two successive readings of the elapsed time, with a clock that does
    not go back and events stamped at or after the epoch: both are
    non-negative, the second is at least the first, and the timeline is not
    touched. *)
Theorem getElapsedUs_monotone
  (m : TimelineMonitor.t) (w : Run.World) (te : TimelineElem.t)
  (rest : list TimelineElem.t) :
  Timeline.getElems (Run.timelineRef w) = te :: rest ->
  0 <= TimelineElem.getTimestamp te <= Run.clock w (Run.clock_reads w) ->
  Run.clock w (Run.clock_reads w) <= Run.clock w (S (Run.clock_reads w)) ->
  Run.clock w (S (Run.clock_reads w)) < 2 ^ 63 ->
  exists e1 e2 w',
    (e1 ← TimelineMonitor.getElapsedUs m;
     e2 ← TimelineMonitor.getElapsedUs m;
     mret (e1, e2)) w = Some ((e1, e2), w')
    /\ 0 <= e1 <= e2
    /\ Run.timelineRef w' = Run.timelineRef w.
Proof.
  intros He Hts Hmono Hmax.
  rewrite (run_bind _ _ _ _ _ (getElapsedUs_eq m w te rest He)).
  cbn beta.
  erewrite run_bind by (apply (getElapsedUs_eq m _ te rest); exact He).
  eexists _, _, _. split; [reflexivity |].
  cbn [Run.timelineRef Run.clock Run.clock_reads].
  split; [| reflexivity].
  unfold TimelineElem.getEpochUs, TimelineElem.getTimestamp in *.
  set (t0 := TimelineElem.timestamp te) in *.
  set (a := Run.clock w (Run.clock_reads w)) in *.
  set (b := Run.clock w (S (Run.clock_reads w))) in *.
  rewrite !getEpochUs_of_nonneg by lia.
  assert (t0 / 1000 <= a / 1000) by (apply Z.div_le_mono; lia).
  assert (a / 1000 <= b / 1000) by (apply Z.div_le_mono; lia).
  assert (0 <= t0 / 1000) by (apply Z.div_pos; lia).
  assert (b / 1000 < 2 ^ 63) by (apply Z.div_lt_upper_bound; lia).
  rewrite !wrap64_small by (unfold is_uint64; lia).
  lia.
Qed.

Lemma getElapsedUs_monotone_witness :
  let te := TimelineElem.make "f" TimelineElem.BEGIN 0 0 2000000 in
  let w := Run.mkWorld (Timeline.make 1 [te] 1)
             (fun n => 2000000 + Z.of_nat n * 2500) 1 in
  exists e1 e2 w',
    (e1 ← TimelineMonitor.getElapsedUs (TimelineMonitor.make "f" 0 false);
     e2 ← TimelineMonitor.getElapsedUs (TimelineMonitor.make "f" 0 false);
     mret (e1, e2)) w = Some ((e1, e2), w')
    /\ 0 <= e1 <= e2
    /\ Run.timelineRef w' = Run.timelineRef w.
Proof.
  intros te w.
  apply (getElapsedUs_monotone (TimelineMonitor.make "f" 0 false) w te []).
  - reflexivity.
  - simpl. lia.
  - simpl. lia.
  - simpl. lia.
Defined.

(** X9.  If the system clock has been set back by at least a microsecond
    behind the first stored event, the unsigned subtraction wraps: the
    elapsed time is 2^64 minus the number of microseconds the clock is
    behind, a value of at least 2^63. *)
Theorem getElapsedUs_clock_set_back
  (m : TimelineMonitor.t) (w : Run.World) (te : TimelineElem.t)
  (rest : list TimelineElem.t) :
  Timeline.getElems (Run.timelineRef w) = te :: rest ->
  0 <= Run.clock w (Run.clock_reads w) ->
  Run.clock w (Run.clock_reads w) + ticks_per_us
    <= TimelineElem.getTimestamp te ->
  TimelineElem.getTimestamp te < 2 ^ 63 ->
  exists r w',
    TimelineMonitor.getElapsedUs m w = Some (r, w')
    /\ r = 2 ^ 64 - (TimelineElem.getTimestamp te / ticks_per_us
                     - Run.clock w (Run.clock_reads w) / ticks_per_us)
    /\ 2 ^ 63 <= r.
Proof.
  intros He Hnow Hback Hmax.
  rewrite (getElapsedUs_eq m w te rest He).
  eexists _, _. split; [reflexivity |].
  unfold TimelineElem.getEpochUs, TimelineElem.getTimestamp, ticks_per_us in *.
  set (t0 := TimelineElem.timestamp te) in *.
  set (a := Run.clock w (Run.clock_reads w)) in *.
  rewrite !getEpochUs_of_nonneg by lia.
  assert (0 <= a / 1000) by (apply Z.div_pos; lia).
  assert (a / 1000 + 1 <= t0 / 1000).
  { replace (a / 1000 + 1) with ((a + 1 * 1000) / 1000)
      by (rewrite Z.div_add by lia; reflexivity).
    apply Z.div_le_mono; lia. }
  assert (t0 / 1000 < 2 ^ 63) by (apply Z.div_lt_upper_bound; lia).
  assert (Hw : wrap64 (a / 1000 - t0 / 1000)
               = 2 ^ 64 - (t0 / 1000 - a / 1000)).
  { unfold wrap64. symmetry. apply (Zmod_unique _ _ (-1)); lia. }
  rewrite Hw. lia.
Qed.

Lemma getElapsedUs_clock_set_back_witness :
  let te := TimelineElem.make "f" TimelineElem.BEGIN 0 0 9000000 in
  let w := Run.mkWorld (Timeline.make 1 [te] 1) (fun _ => 8998000) 1 in
  exists r w',
    TimelineMonitor.getElapsedUs (TimelineMonitor.make "f" 0 false) w
    = Some (r, w')
    /\ r = 2 ^ 64 - (9000000 / ticks_per_us - 8998000 / ticks_per_us)
    /\ 2 ^ 63 <= r.
Proof.
  intros te w.
  apply (getElapsedUs_clock_set_back (TimelineMonitor.make "f" 0 false) w te []).
  - reflexivity.
  - simpl. lia.
  - unfold ticks_per_us. simpl. lia.
  - simpl. lia.
Defined.

(** ** Continuing on an exported timeline *)

Lemma on_timeline_eq {A : Type} (tl : Timeline.t) (m : Run.M A) w a w1 :
  m (Run.mkWorld tl (Run.clock w) (Run.clock_reads w)) = Some (a, w1) ->
  QuickStart.on_timeline tl m w
  = Some ((a, Run.timelineRef w1),
          Run.mkWorld (Run.timelineRef w) (Run.clock w1) (Run.clock_reads w1)).
Proof. intros H. unfold QuickStart.on_timeline. rewrite H. reflexivity. Qed.

Lemma src_new_eq (name : string) (c : Z) (w : Run.World) :
  SrcHeader.new name c w
  = Some ((TimelineMonitor.make name c false, wrap64 (c + 1)),
          Run.mkWorld
            (Timeline.make (Timeline.eventIdCounter (Run.timelineRef w))
               (Timeline.elems (Run.timelineRef w)
                ++ [TimelineElem.make name TimelineElem.BEGIN c
                      (Timeline.lastDepth (Run.timelineRef w))
                      (Run.clock w (Run.clock_reads w))])
               (wrap32 (Timeline.lastDepth (Run.timelineRef w) + 1)))
            (Run.clock w) (S (Run.clock_reads w))).
Proof. reflexivity. Qed.

Lemma some_eq_bool_decide (c i : Z) (A : Type) (x y : A) :
  (if bool_decide (Some c = Some i) then x else y)
  = (if bool_decide (c = i) then x else y).
Proof.
  destruct (decide (c = i)) as [-> | Hne].
  - rewrite !bool_decide_eq_true_2 by reflexivity. reflexivity.
  - rewrite !bool_decide_eq_false_2 by congruence. reflexivity.
Qed.

Lemma src_func_d_run (z c : Z) (b_e e_e : TimelineElem.t)
  (clk : nat -> time_point) (r : nat) :
  TimelineElem.getId b_e = c ->
  let b_d := TimelineElem.make "func_d" TimelineElem.BEGIN 1 0 (clk r) in
  let e_d := TimelineElem.make "func_d" TimelineElem.END 1 0 (clk (S (S r))) in
  let copy := Timeline.make z [b_e; e_e; b_d; e_d] 0 in
  SrcHeader.func_d (Run.mkWorld (Timeline.make z [b_e; e_e] 0) clk r)
  = Some ((wrap64 (TimelineElem.getEpochUs_of (clk (S r))
                   - TimelineElem.getEpochUs b_e),
           TimelineDump.toString copy),
          Run.mkWorld
            (if bool_decide (c = 1) then Timeline.make z [] 0 else copy)
            clk (S (S (S r)))).
Proof.
  intros Hid b_d e_d copy.
  unfold SrcHeader.func_d, SrcHeader.event_id_counter_init.
  rewrite (run_bind _ _ _ _ _ (src_new_eq "func_d" _ _)). cbn beta iota.
  cbn [Run.timelineRef Run.clock Run.clock_reads Timeline.pushBegin
       Timeline.elems Timeline.eventIdCounter Timeline.lastDepth app].
  erewrite run_bind
    by (apply (getElapsedUs_eq _ _ b_e [e_e; b_d]); reflexivity).
  cbn beta.
  cbn [Run.timelineRef Run.clock Run.clock_reads].
  erewrite run_bind by apply exportTimeline_eq.
  cbn beta iota zeta.
  cbn [Run.timelineRef Run.clock Run.clock_reads Timeline.elems
       Timeline.eventIdCounter Timeline.lastDepth TimelineMonitor.myId
       TimelineMonitor.myName app head fmap option_fmap option_map].
  rewrite Hid, some_eq_bool_decide.
  erewrite run_bind by (apply destroy_done; reflexivity).
  change (wrap32 (wrap32 (0 + 1) - 1)) with 0.
  destruct (bool_decide (c = 1)); reflexivity.
Qed.

(** X10.  The quick-start hand-off under the header in [src/].  [func_e],
    started on a thread whose counter is [c] while no chain is open, exports
    its own two events and clears the thread's timeline.  [func_d] runs on a
    new thread, whose counter starts at 1, bound to the copy: its guard gets
    the id 1, whatever [c] is.  The elapsed time it prints is measured from
    [func_e]'s Begin event, and the copy it exports holds all four events.
    If [c] is not 1 the local [exported] of [func_e] ends with the same four
    events and the last line of the dump is [func_d]'s.  If [c] is 1
    ([func_e]'s guard was the first of its thread) the two guards share the
    id: [func_d]'s export clears [exported], and the last line of the dump
    names [func_e] and shows the time since [func_e]'s Begin event. *)
Theorem quick_start_hand_off (c : Z) (w : Run.World) :
  Timeline.elems (Run.timelineRef w) = [] ->
  Timeline.lastDepth (Run.timelineRef w) = 0 ->
  let z := Timeline.eventIdCounter (Run.timelineRef w) in
  let clk := Run.clock w in
  let r := Run.clock_reads w in
  let b_e := TimelineElem.make "func_e" TimelineElem.BEGIN c 0 (clk r) in
  let e_e := TimelineElem.make "func_e" TimelineElem.END c 0 (clk (S r)) in
  let b_d :=
    TimelineElem.make "func_d" TimelineElem.BEGIN 1 0 (clk (S (S r))) in
  let e_d :=
    TimelineElem.make "func_d" TimelineElem.END 1 0 (clk (S (S (S (S r))))) in
  let copy := Timeline.make z [b_e; e_e; b_d; e_d] 0 in
  let show_e (x : TimelineElem.t) :=
    TimelineDump.show_u64 (TimelineElem.getEpochUs x) in
  let since (x : TimelineElem.t) :=
    TimelineDump.show_u64
      (wrap64 (TimelineElem.getEpochUs e_d - TimelineElem.getEpochUs x)) in
  SrcHeader.func_e c w
  = Some ((wrap64 (TimelineElem.getEpochUs_of (clk (S (S (S r))))
                   - TimelineElem.getEpochUs b_e),
           TimelineDump.toString copy,
           (if bool_decide (c = 1) then Timeline.make z [] 0 else copy),
           wrap64 (c + 1)),
          Run.mkWorld (Timeline.make z [] 0) clk (S (S (S (S (S r))))))
  /\ TimelineDump.toString copy
     = Rendered.join_endl
         ["func_e, " +:+ show_e b_e;
          "func_e, " +:+ show_e e_e +:+ ", "
            +:+ TimelineDump.show_u64
                  (wrap64 (TimelineElem.getEpochUs e_e
                           - TimelineElem.getEpochUs b_e));
          "func_d, " +:+ show_e b_d;
          if bool_decide (c = 1)
          then "func_e, " +:+ show_e e_d +:+ ", " +:+ since b_e
          else "func_d, " +:+ show_e e_d +:+ ", " +:+ since b_d].
Proof.
  intros Hel Hd z clk r b_e e_e b_d e_d copy show_e since.
  split.
  - assert (Hw : w = Run.mkWorld (Timeline.make z [] 0) clk r).
    { destruct w as [[z0 l d] clk0 r0]. simpl in *. subst. reflexivity. }
    rewrite Hw at 1. unfold SrcHeader.func_e.
    rewrite (run_bind _ _ _ _ _ (src_new_eq "func_e" _ _)). cbn beta iota.
    erewrite run_bind by apply exportTimeline_eq.
    cbn beta iota zeta.
    cbn [Run.timelineRef Run.clock Run.clock_reads Timeline.pushBegin
         Timeline.elems Timeline.eventIdCounter Timeline.lastDepth
         TimelineMonitor.myId TimelineMonitor.myName app head fmap
         option_fmap option_map TimelineElem.getId TimelineElem.id].
    rewrite bool_decide_eq_true_2 by reflexivity.
    change (wrap32 (0 + 1)) with 1. change (wrap32 (1 - 1)) with 0.
    fold b_e e_e.
    erewrite run_bind.
    2:{ apply on_timeline_eq.
        cbn [Run.clock Run.clock_reads].
        apply (src_func_d_run z c b_e e_e clk (S (S r))). reflexivity. }
    cbn beta iota.
    erewrite run_bind by (apply destroy_done; reflexivity).
    reflexivity.
  - rewrite toString_lines.
    unfold Timeline.getElems, copy. cbn [Timeline.elems Rendered.lines app].
    unfold Rendered.line, Rendered.first_begin, Rendered.is_begin_of.
    cbn [b_e e_e b_d e_d TimelineElem.getType TimelineElem.type
         TimelineElem.getId TimelineElem.id List.find
         TimelineElem.Type_eqb andb].
    rewrite Z.eqb_refl.
    destruct (decide (c = 1)) as [-> | Hne].
    + rewrite bool_decide_eq_true_2 by reflexivity. reflexivity.
    + rewrite bool_decide_eq_false_2 by exact Hne.
      apply Z.eqb_neq in Hne. rewrite Hne. reflexivity.
Qed.

Lemma quick_start_hand_off_witness :
  let w := Run.mkWorld Timeline.new (fun n => 1000000 + Z.of_nat n * 1500) 0 in
  let b_e := TimelineElem.make "func_e" TimelineElem.BEGIN 1 0 1000000 in
  let e_e := TimelineElem.make "func_e" TimelineElem.END 1 0 1001500 in
  let b_d := TimelineElem.make "func_d" TimelineElem.BEGIN 1 0 1003000 in
  let e_d := TimelineElem.make "func_d" TimelineElem.END 1 0 1006000 in
  let copy := Timeline.make 0 [b_e; e_e; b_d; e_d] 0 in
  SrcHeader.func_e 1 w
  = Some ((4, TimelineDump.toString copy, Timeline.make 0 [] 0, 2),
          Run.mkWorld (Timeline.make 0 [] 0) (Run.clock w) 5)
  /\ TimelineDump.toString copy
     = Rendered.join_endl
         ["func_e, 1000"; "func_e, 1001, 1"; "func_d, 1003"; "func_e, 1006, 6"].
Proof.
  intros w b_e e_e b_d e_d copy.
  apply (quick_start_hand_off 1 w); reflexivity.
Defined.

Example quick_start_hand_off_after_func_c :
  let w := Run.mkWorld Timeline.new (fun n => 1000000 + Z.of_nat n * 1500) 0 in
  let b_e := TimelineElem.make "func_e" TimelineElem.BEGIN 23 0 1000000 in
  let e_e := TimelineElem.make "func_e" TimelineElem.END 23 0 1001500 in
  let b_d := TimelineElem.make "func_d" TimelineElem.BEGIN 1 0 1003000 in
  let e_d := TimelineElem.make "func_d" TimelineElem.END 1 0 1006000 in
  let copy := Timeline.make 0 [b_e; e_e; b_d; e_d] 0 in
  SrcHeader.func_e 23 w
  = Some ((4, TimelineDump.toString copy, copy, 24),
          Run.mkWorld (Timeline.make 0 [] 0) (Run.clock w) 5)
  /\ TimelineDump.toString copy
     = Rendered.join_endl
         ["func_e, 1000"; "func_e, 1001, 1"; "func_d, 1003"; "func_d, 1006, 3"].
Proof. intros w b_e e_e b_d e_d copy. split; reflexivity. Qed.

(** X11.  A copy exported from the guard that opened a chain is itself in
    the state of an open chain: a guard bound to it gets an id that is not
    the first stored one, so a scope run on the copy appends its two events
    and never clears it, while the thread's own timeline stays empty. *)
Theorem exported_copy_keeps_growing
  (c0 : Z) (k n : nat) (d : Z) (name name2 : string) (w : Run.World) :
  Chain.inside c0 k n d w ->
  (0 < k)%nat -> Z.of_nat k < 2 ^ 64 -> is_uint64 c0 ->
  exists ret m' w' out w'',
    TimelineMonitor.exportTimeline (TimelineMonitor.make name c0 false) w
    = Some ((ret, m'), w')
    /\ Timeline.getElems (Run.timelineRef w') = []
    /\ QuickStart.on_timeline ret
         (blk ← TimelineMonitor.new name2;
          TimelineMonitor.destroy blk ;; mret tt) w'
       = Some ((tt, out), w'')
    /\ length (Timeline.getElems ret) = S n
    /\ length (Timeline.getElems out) = S (S (S n))
    /\ TimelineElem.getId <$> head (Timeline.getElems out) = Some c0
    /\ Timeline.getDepth out = Timeline.getDepth ret
    /\ Run.timelineRef w'' = Run.timelineRef w'.
Proof.
  intros Hin Hk0 Hk Hc0. pose proof Hin as (Hh & Hn & Hc & Hd).
  destruct (export_outermost c0 k n d name w Hin)
    as (ret & m' & w' & Hexp & _ & Hlen & _ & Hdep & Hclr & _).
  assert (Hret : Chain.inside c0 k (S n) (wrap32 (d - 1))
                   (Run.mkWorld ret (Run.clock w') (Run.clock_reads w'))).
  { rewrite exportTimeline_eq in Hexp. injection Hexp as <- _ _.
    unfold Chain.inside.
    cbn [Run.timelineRef Timeline.elems Timeline.eventIdCounter
         Timeline.lastDepth].
    split; [apply head_snoc_inside, Hh |].
    split; [rewrite length_app, Hn; simpl; lia |].
    split; [exact Hc | rewrite Hd; reflexivity]. }
  destruct (block_inside c0 k (S n) (wrap32 (d - 1)) name2 _ Hret)
    as (w1 & Hblk & (Hh1 & Hn1 & _ & Hd1));
    [exact Hk0 | exact Hk | exact Hc0 | apply wrap32_range |].
  eexists ret, m', w', (Run.timelineRef w1), _.
  split; [exact Hexp |]. split; [exact Hclr |].
  split; [apply (on_timeline_eq ret _ w' tt w1 Hblk) |].
  unfold Timeline.getElems, Timeline.getDepth in *.
  split; [exact Hlen |]. split; [exact Hn1 |]. split; [exact Hh1 |].
  split; [rewrite Hd1, Hdep; reflexivity | reflexivity].
Qed.

Lemma exported_copy_keeps_growing_witness :
  exists ret m' w' out w'',
    TimelineMonitor.exportTimeline (TimelineMonitor.make "f" 0 false)
      (Run.mkWorld
         (Timeline.make 1 [TimelineElem.make "f" TimelineElem.BEGIN 0 0 0] 1)
         (fun n => Z.of_nat n * 1000) 1)
    = Some ((ret, m'), w')
    /\ Timeline.getElems (Run.timelineRef w') = []
    /\ QuickStart.on_timeline ret
         (blk ← TimelineMonitor.new "g";
          TimelineMonitor.destroy blk ;; mret tt) w'
       = Some ((tt, out), w'')
    /\ length (Timeline.getElems ret) = 2%nat
    /\ length (Timeline.getElems out) = 4%nat
    /\ TimelineElem.getId <$> head (Timeline.getElems out) = Some 0
    /\ Timeline.getDepth out = Timeline.getDepth ret
    /\ Run.timelineRef w'' = Run.timelineRef w'.
Proof.
  apply (exported_copy_keeps_growing 0 1 1 1 "f" "g").
  - unfold Chain.inside. simpl. repeat split.
  - lia.
  - simpl. lia.
  - unfold is_uint64. lia.
Defined.

(** ** Rendering grows with the sequence *)

Lemma string_app_nil_r (s : string) : s +:+ EmptyString = s.
Proof.
  induction s as [| x s IH]; [reflexivity |].
  change (String x (s +:+ EmptyString) = String x s). f_equal. exact IH.
Qed.

Lemma join_endl_app_prefix (l1 l2 : list string) :
  exists rest, Rendered.join_endl (l1 ++ l2) = Rendered.join_endl l1 +:+ rest.
Proof.
  induction l2 as [| x l2 IH] using rev_ind.
  - exists EmptyString. rewrite app_nil_r, string_app_nil_r. reflexivity.
  - destruct IH as (rest & IH). rewrite app_assoc, join_endl_snoc.
    destruct (l1 ++ l2) as [| y ys] eqn:E.
    + apply app_eq_nil in E as [-> _]. exists x. reflexivity.
    + rewrite IH. eexists. apply string_app_assoc.
Qed.

(** X12.  Appending one event to a timeline extends its dump and never
    rewrites it: an End event with no Begin event of its id before it leaves
    the text as it is; any other event adds its line, after a line end if
    there is text already.  The line of an End event takes indentation and
    name from the first Begin event of its id, and shows the End's epoch and
    the difference of the two epochs.  So the dump of a timeline exported in
    the middle of a chain is a prefix of the dump of any later export. *)
Theorem toString_extends (l : list TimelineElem.t) (e : TimelineElem.t)
  (ctr d ctr' d' : Z) :
  TimelineDump.toString (Timeline.make ctr' (l ++ [e]) d')
  = match Rendered.line l e with
    | None => TimelineDump.toString (Timeline.make ctr l d)
    | Some text =>
        match Rendered.lines [] l with
        | [] => text
        | _ :: _ =>
            TimelineDump.toString (Timeline.make ctr l d)
            +:+ TimelineDump.endl +:+ text
        end
    end
  /\ (forall later ctr2 d2,
         exists rest,
           TimelineDump.toString (Timeline.make ctr2 (l ++ later) d2)
           = TimelineDump.toString (Timeline.make ctr l d) +:+ rest).
Proof.
  split.
  - rewrite !toString_lines. unfold Timeline.getElems. cbn [Timeline.elems].
    rewrite lines_app. cbn [Rendered.lines]. rewrite app_nil_r.
    change ([] ++ l) with l.
    destruct (Rendered.line l e) as [text |];
      unfold option_list; cbn [option_rect].
    + rewrite join_endl_snoc. reflexivity.
    + rewrite app_nil_r. reflexivity.
  - intros later ctr2 d2. rewrite !toString_lines.
    unfold Timeline.getElems. cbn [Timeline.elems].
    rewrite lines_app. apply join_endl_app_prefix.
Qed.

Example toString_first_begin_wins :
  TimelineDump.toString
    (Timeline.make 0
       [TimelineElem.make "first" TimelineElem.BEGIN 3 2 5000;
        TimelineElem.make "second" TimelineElem.BEGIN 3 0 6000;
        TimelineElem.make "other" TimelineElem.END 3 1 9000] 0)
  = "  first, 5" +:+ TimelineDump.endl
    +:+ "second, 6" +:+ TimelineDump.endl
    +:+ "  first, 9, 4".
Proof. reflexivity. Qed.

(** ** The dump of a well-nested chain *)

Lemma exec_no_reset_records ops : forall tl f,
  TimelineElem.getId <$> head (Timeline.elems tl) = Some f ->
  Forall (fun o => Ops.closes f o = false) ops ->
  exists tl' added,
    Nesting.exec ops tl = Some tl'
    /\ Timeline.elems tl' = Timeline.elems tl ++ added
    /\ Forall2 Ops.records added ops.
Proof.
  induction ops as [| o ops IH]; intros tl f Hh Hall.
  - exists tl, []. rewrite app_nil_r. repeat split. constructor.
  - apply Forall_cons in Hall as [Ho Hall].
    destruct o as [name id now | name id now]; cbn [Nesting.exec Nesting.step].
    + cbn [mbind option_bind].
      destruct (IH (Timeline.pushBegin tl name id now) f)
        as (tl' & added & He & Hel & Hrec).
      { apply head_snoc_inside, Hh. }
      { exact Hall. }
      eexists tl', (_ :: added). split; [exact He |].
      split; [rewrite Hel; cbn [Timeline.pushBegin Timeline.elems];
              rewrite <- app_assoc; reflexivity |].
      constructor; [repeat split | exact Hrec].
    + rewrite pushEnd_eq. cbn [mbind option_bind].
      cbn [Ops.closes] in Ho. apply Z.eqb_neq in Ho.
      rewrite bool_decide_eq_false_2.
      2:{ rewrite (head_snoc_inside _ _ f Hh). congruence. }
      match goal with |- context [Nesting.exec ops ?x] => set (tl1 := x) end.
      destruct (IH tl1 f) as (tl' & added & He & Hel & Hrec).
      { subst tl1. apply head_snoc_inside, Hh. }
      { exact Hall. }
      eexists tl', (_ :: added). split; [exact He |].
      split; [rewrite Hel; subst tl1; cbn [Timeline.elems];
              rewrite <- app_assoc; reflexivity |].
      constructor; [repeat split | exact Hrec].
Qed.

Lemma line_begin_is_Some earlier b :
  TimelineElem.getType b = TimelineElem.BEGIN ->
  exists text, Rendered.line earlier b = Some text.
Proof. intros Ht. unfold Rendered.line. rewrite Ht. eexists. reflexivity. Qed.

Lemma line_end_is_Some earlier b e :
  b ∈ earlier ->
  TimelineElem.getType b = TimelineElem.BEGIN ->
  TimelineElem.getId b = TimelineElem.getId e ->
  exists text, Rendered.line earlier e = Some text.
Proof.
  intros Hin Ht Hid.
  destruct (Rendered.line earlier e) as [text |] eqn:Hl; [eauto |].
  apply line_orphan in Hl as [_ Hno]. exfalso. exact (Hno b Hin Ht Hid).
Qed.

Lemma lines_well_nested ops :
  Nesting.well_nested ops ->
  forall evs earlier,
    Forall2 Ops.records evs ops ->
    length (Rendered.lines earlier evs) = length evs.
Proof.
  induction 1 as [| name name' id tb te body rest _ IHb _ IHr];
    intros evs earlier Hrec.
  - apply Forall2_nil_inv_r in Hrec as ->. reflexivity.
  - apply Forall2_cons_inv_r in Hrec as (b & evs1 & Hb & Hrec & ->).
    apply Forall2_app_inv_r in Hrec as (eb & er' & Hreb & Hrec & ->).
    apply Forall2_cons_inv_r in Hrec as (e & er & He & Hrer & ->).
    destruct Hb as (_ & Hbt & Hbi & _). destruct He as (_ & Het & Hei & _).
    cbn [Ops.op_type Ops.op_id] in *.
    cbn [Rendered.lines]. rewrite lines_app. cbn [Rendered.lines].
    destruct (line_begin_is_Some earlier b Hbt) as (tb' & ->).
    destruct (line_end_is_Some ((earlier ++ [b]) ++ eb) b e) as (te' & ->).
    { set_solver. }
    { exact Hbt. }
    { congruence. }
    cbn [option_list]. unfold option_list. cbn [option_rect].
    rewrite !length_app. cbn [length]. rewrite !length_app. cbn [length].
    rewrite (IHb eb), (IHr er) by assumption. lia.
Qed.

Lemma lines_length_le (l earlier : list TimelineElem.t) :
  (length (Rendered.lines earlier l) <= length l)%nat.
Proof.
  revert earlier. induction l as [| e l IH]; intros earlier; [reflexivity |].
  cbn [Rendered.lines length]. rewrite length_app.
  specialize (IH (earlier ++ [e])).
  destruct (Rendered.line earlier e); cbn [option_list length] in *;
    unfold option_list; cbn [option_rect length]; lia.
Qed.

Lemma lines_none_skipped (l earlier p q : list TimelineElem.t) e :
  length (Rendered.lines earlier l) = length l ->
  l = p ++ e :: q ->
  exists text, Rendered.line (earlier ++ p) e = Some text.
Proof.
  intros Hlen ->. rewrite lines_app in Hlen. cbn [Rendered.lines] in Hlen.
  rewrite !length_app in Hlen. cbn [length] in Hlen.
  pose proof (lines_length_le p earlier).
  pose proof (lines_length_le q ((earlier ++ p) ++ [e])).
  destruct (Rendered.line (earlier ++ p) e) as [text |]; [eauto |].
  unfold option_list in Hlen. cbn [option_rect length] in Hlen. lia.
Qed.

(** X13.  The dump of a whole well-nested chain skips nothing: for a chain
    opened on an empty sequence, with a well-nested body that does not close
    the opening id, the text of the copy exported at the close is the lines
    of its events joined by line ends, and every event of the copy, two per
    scope, has its line: no End event is without a Begin event of its id
    before it. *)
Theorem well_nested_chain_dump
  (tl : Timeline.t) (name name' : string) (i : Z) (t_begin t_end : time_point)
  (body : list Nesting.op) :
  Timeline.elems tl = [] ->
  Nesting.well_nested body ->
  Forall (fun o => Ops.closes i o = false) body ->
  exists tl2 ret tl3,
    Nesting.exec (Nesting.OpBegin name i t_begin :: body) tl = Some tl2
    /\ Timeline.pushEndAndExport tl2 name' i t_end = Some (ret, tl3)
    /\ TimelineDump.toString ret
       = Rendered.join_endl (Rendered.lines [] (Timeline.getElems ret))
    /\ length (Rendered.lines [] (Timeline.getElems ret))
       = length (Timeline.getElems ret)
    /\ length (Timeline.getElems ret) = (length body + 2)%nat
    /\ (forall pre e post,
           Timeline.getElems ret = pre ++ e :: post ->
           ~ Rendered.orphan_end pre e
           /\ exists text,
               Rendered.line pre e = Some text
               /\ Rendered.lines [] (Timeline.getElems ret)
                  = Rendered.lines [] pre ++ [text]
                    ++ Rendered.lines (pre ++ [e]) post).
Proof.
  intros Hempty Hwn Hall.
  destruct (exec_no_reset_records body (Timeline.pushBegin tl name i t_begin) i)
    as (tl2 & added & He & Hel & Hrec).
  { cbn [Timeline.pushBegin Timeline.elems]. rewrite Hempty. reflexivity. }
  { exact Hall. }
  cbn [Timeline.pushBegin Timeline.elems] in Hel. rewrite Hempty in Hel.
  eexists tl2, _, _.
  split; [exact He |].
  split; [apply pushEndAndExport_eq |].
  split; [apply toString_lines |].
  unfold Timeline.getElems. cbn [Timeline.elems]. rewrite Hel. cbn [app].
  set (b := TimelineElem.make name TimelineElem.BEGIN i
              (Timeline.lastDepth tl) t_begin).
  set (e := TimelineElem.make name' TimelineElem.END i
              (wrap32 (Timeline.lastDepth tl2 - 1)) t_end).
  assert (Hlen : length (Rendered.lines [] (b :: added ++ [e]))
                 = length (b :: added ++ [e])).
  { apply (lines_well_nested
             (Nesting.OpBegin name i t_begin
              :: body ++ Nesting.OpEnd name' i t_end :: [])).
    - constructor; [exact Hwn | constructor].
    - constructor; [repeat split |].
      apply Forall2_app; [exact Hrec |].
      constructor; [repeat split | constructor]. }
  split; [exact Hlen |].
  split.
  { cbn [length]. rewrite length_app. cbn [length].
    rewrite (Forall2_length _ _ _ Hrec). lia. }
  intros pre e0 post Hsplit.
  destruct (lines_none_skipped _ [] pre post e0 Hlen Hsplit) as (text & Hline).
  cbn [app] in Hline.
  split.
  - intros Ho. apply line_orphan in Ho. congruence.
  - exists text. split; [exact Hline |].
    rewrite Hsplit, lines_app. cbn [Rendered.lines app].
    rewrite Hline. reflexivity.
Qed.

Lemma well_nested_chain_dump_witness :
  exists tl2 ret tl3,
    Nesting.exec [Nesting.OpBegin "f" 4 10000; Nesting.OpBegin "g" 5 20000;
                  Nesting.OpEnd "g" 5 30000] (Timeline.make 4 [] 0) = Some tl2
    /\ Timeline.pushEndAndExport tl2 "f" 4 40000 = Some (ret, tl3)
    /\ TimelineDump.toString ret
       = Rendered.join_endl (Rendered.lines [] (Timeline.getElems ret))
    /\ length (Rendered.lines [] (Timeline.getElems ret))
       = length (Timeline.getElems ret)
    /\ length (Timeline.getElems ret) = 4%nat
    /\ (forall pre e post,
           Timeline.getElems ret = pre ++ e :: post ->
           ~ Rendered.orphan_end pre e
           /\ exists text,
               Rendered.line pre e = Some text
               /\ Rendered.lines [] (Timeline.getElems ret)
                  = Rendered.lines [] pre ++ [text]
                    ++ Rendered.lines (pre ++ [e]) post).
Proof.
  apply (well_nested_chain_dump (Timeline.make 4 [] 0) "f" "f" 4 10000 40000
           [Nesting.OpBegin "g" 5 20000; Nesting.OpEnd "g" 5 30000]).
  - reflexivity.
  - apply (Nesting.wn_scope "g" "g" 5 20000 30000 [] []); constructor.
  - repeat constructor.
Defined.

Example well_nested_chain_dump_text :
  TimelineDump.toString
    (Timeline.make 4
       [TimelineElem.make "f" TimelineElem.BEGIN 4 0 10000;
        TimelineElem.make "g" TimelineElem.BEGIN 5 1 20000;
        TimelineElem.make "g" TimelineElem.END 5 1 30000;
        TimelineElem.make "f" TimelineElem.END 4 0 40000] 0)
  = "f, 10" +:+ TimelineDump.endl
    +:+ " g, 20" +:+ TimelineDump.endl
    +:+ " g, 30, 10" +:+ TimelineDump.endl
    +:+ "f, 40, 30".
Proof. reflexivity. Qed.

(** ** Scopes compose *)

Lemma head_snoc_keep {A : Type} (l : list A) (x b : A) :
  head l = Some b -> head (l ++ [x]) = Some b.
Proof. destruct l; [discriminate | intros H; exact H]. Qed.

Lemma new_running b clk r0 k n d name w :
  Scoped.running b clk r0 k n d w ->
  exists w',
    TimelineMonitor.new name w
    = Some (TimelineMonitor.make name
              (wrap64 (TimelineElem.getId b + Z.of_nat k)) false, w')
    /\ Scoped.running b clk r0 (S k) (S n) (wrap32 (d + 1)) w'.
Proof.
  intros (Hin & Hb & Hclk & Hr).
  destruct (new_inside _ k n d name w Hin) as (w' & Heq & Hin').
  exists w'. split; [exact Heq |].
  split; [exact Hin' |].
  rewrite new_eq in Heq. injection Heq as _ <-.
  cbn [Run.timelineRef Run.clock Run.clock_reads Timeline.elems].
  split; [apply head_snoc_keep, Hb |]. split; [exact Hclk | lia].
Qed.

Lemma destroy_running b clk r0 k n d m w :
  Scoped.running b clk r0 k n d w ->
  TimelineMonitor.done m = false ->
  TimelineMonitor.myId m <> TimelineElem.getId b ->
  exists m' w',
    TimelineMonitor.destroy m w = Some (m', w')
    /\ Scoped.running b clk r0 k (S n) (wrap32 (d - 1)) w'.
Proof.
  intros (Hin & Hb & Hclk & Hr) Hdone Hne.
  destruct (destroy_inside _ k n d m w Hin Hdone Hne) as (m' & w' & Heq & Hin').
  exists m', w'. split; [exact Heq |].
  split; [exact Hin' |].
  rewrite (destroy_eq m w Hdone) in Heq. injection Heq as _ <-.
  cbn [Run.timelineRef Run.clock Run.clock_reads].
  rewrite bool_decide_eq_false_2.
  2:{ rewrite (head_snoc_keep _ _ b Hb). cbn [fmap option_fmap option_map].
      congruence. }
  cbn [Timeline.elems].
  split; [apply head_snoc_keep, Hb |]. split; [exact Hclk | lia].
Qed.

Lemma nop_unit : Scoped.unit_of (mret tt) 0 0.
Proof.
  intros b clk r0 k n d w Hrun _ _ _ _. exists w. split; [reflexivity |].
  replace (k + 0)%nat with k by lia. replace (n + 0)%nat with n by lia.
  exact Hrun.
Qed.

Lemma scope_unit (name : string) (body : Run.M unit) (dk dn : nat) :
  Scoped.unit_of body dk dn ->
  Scoped.unit_of (mon ← TimelineMonitor.new name;
                  body ;; TimelineMonitor.destroy mon ;; mret tt)
    (S dk) (dn + 2).
Proof.
  intros Hbody b clk r0 k n d w Hrun Hk0 Hk Hb Hd.
  destruct (new_running b clk r0 k n d name w Hrun) as (w1 & Hnew & H1).
  rewrite (run_bind _ _ _ _ _ Hnew). cbn beta.
  destruct (Hbody b clk r0 (S k) (S n) (wrap32 (d + 1)) w1 H1)
    as (w2 & Hrun2 & H2);
    [lia | lia | exact Hb | apply wrap32_range |].
  rewrite (run_bind _ _ _ _ _ Hrun2). cbn beta.
  destruct (destroy_running b clk r0 (S k + dk) (S n + dn) (wrap32 (d + 1))
              (TimelineMonitor.make name
                 (wrap64 (TimelineElem.getId b + Z.of_nat k)) false) w2 H2)
    as (m' & w3 & Hdes & H3).
  { reflexivity. }
  { cbn [TimelineMonitor.myId]. apply wrap64_add_ne; [exact Hb | lia]. }
  rewrite (run_bind _ _ _ _ _ Hdes).
  exists w3. split; [reflexivity |].
  rewrite wrap32_succ_pred in H3 by exact Hd.
  replace (k + S dk)%nat with (S k + dk)%nat by lia.
  replace (n + (dn + 2))%nat with (S (S n + dn)) by lia.
  exact H3.
Qed.

Lemma loop_unit (u : Run.M unit) (dk dn : nat) (m : nat) :
  Scoped.unit_of u dk dn -> Scoped.unit_of (Run.for_loop m u) (m * dk) (m * dn).
Proof.
  intros Hu b clk r0 k n d w Hrun Hk0 Hk Hb Hd.
  destruct (for_loop_inv
              (fun i => Scoped.running b clk r0 (k + i * dk) (n + i * dn) d)
              u m) with (w := w) as (w' & Hloop & H').
  - intros i wi Hi Hruni.
    destruct (Hu b clk r0 (k + i * dk)%nat (n + i * dn)%nat d wi Hruni)
      as (wi' & Hrun' & Hruni');
      [lia | | exact Hb | exact Hd |].
    { assert ((k + i * dk + dk <= k + m * dk)%nat) by nia. lia. }
    exists wi'. split; [exact Hrun' |].
    replace (k + S i * dk)%nat with (k + i * dk + dk)%nat by lia.
    replace (n + S i * dn)%nat with (n + i * dn + dn)%nat by lia.
    exact Hruni'.
  - replace (k + 0 * dk)%nat with k by lia.
    replace (n + 0 * dn)%nat with n by lia. exact Hrun.
  - exists w'. split; [exact Hloop | exact H'].
Qed.

Lemma block_unit (name : string) :
  Scoped.unit_of (blk ← TimelineMonitor.new name;
                  TimelineMonitor.destroy blk ;; mret tt) 1 2.
Proof. exact (scope_unit name (mret tt) 0 0 nop_unit). Qed.

Lemma func_a_unit : Scoped.unit_of QuickStart.func_a 3 6.
Proof.
  exact (scope_unit "func_a" _ _ _
           (loop_unit _ 1 2 2 (block_unit "func_a_inner"))).
Qed.

Lemma func_b_unit : Scoped.unit_of QuickStart.func_b 7 14.
Proof. exact (scope_unit "func_b" _ _ _ (loop_unit _ 3 6 2 func_a_unit)). Qed.

(** X14.  Scopes compose.  A scope (guard created, body run, guard
    destroyed) around a body that uses [dk] ids and stores [dn] events uses
    [dk + 1] ids and stores [dn + 2] events; a loop of [m] rounds multiplies
    both; in every case the chain's first event stays first, nothing is
    cleared, the depth counter is back where it was, and the clock has been
    read once per stored event.  For the quick start: [func_a] stores 6
    events and [func_b] 14, each leaving the depth as found. *)
Theorem scopes_compose :
  (forall name body dk dn,
      Scoped.unit_of body dk dn ->
      Scoped.unit_of (mon ← TimelineMonitor.new name;
                      body ;; TimelineMonitor.destroy mon ;; mret tt)
        (S dk) (dn + 2))
  /\ (forall u dk dn m,
         Scoped.unit_of u dk dn ->
         Scoped.unit_of (Run.for_loop m u) (m * dk) (m * dn))
  /\ (forall A, Scoped.unit_of (HierarchicalTest.func_1 A) (S A) (2 * A + 2))
  /\ Scoped.unit_of QuickStart.func_a 3 6
  /\ Scoped.unit_of QuickStart.func_b 7 14.
Proof.
  split; [exact scope_unit |]. split; [exact loop_unit |].
  split; [| split; [exact func_a_unit | exact func_b_unit]].
  intros A.
  replace (2 * A + 2)%nat with (A * 2 + 2)%nat by lia.
  replace (S A) with (S (A * 1)) by lia.
  exact (scope_unit "operator()" _ _ _
           (loop_unit _ 1 2 A (block_unit "func_1_inner"))).
Qed.

Lemma scopes_compose_witness :
  let b := TimelineElem.make "top" TimelineElem.BEGIN 0 0 0 in
  let w := Run.mkWorld (Timeline.make 1 [b] 1) (fun n => Z.of_nat n * 1000) 1 in
  exists w',
    QuickStart.func_b w = Some (tt, w')
    /\ Scoped.running b (fun n => Z.of_nat n * 1000) 0 (1 + 7) (1 + 14) 1 w'.
Proof.
  intros b w.
  apply (proj2 (proj2 (proj2 (proj2 scopes_compose)))
           b (fun n => Z.of_nat n * 1000) 0%nat 1%nat 1%nat 1 w).
  - unfold Scoped.running, Chain.inside. simpl. repeat split.
  - lia.
  - simpl. lia.
  - unfold is_uint64. simpl. lia.
  - unfold is_uint32. lia.
Defined.

(** X15.  [func_c] of the quick start, started while no chain is open: the
    elapsed time it prints is measured from its own Begin event to the
    clock reading after the 43 events stored before the query; the timeline
    it exports and dumps holds 44 events, from its Begin event to its End
    event, both at depth 0; the thread's timeline is idle again and 22 ids
    are used. *)
Theorem quick_start_func_c (w : Run.World) :
  Chain.idle w ->
  let c := Timeline.eventIdCounter (Run.timelineRef w) in
  let clk := Run.clock w in
  let r := Run.clock_reads w in
  let b := TimelineElem.make "func_c" TimelineElem.BEGIN c 0 (clk r) in
  let e := TimelineElem.make "func_c" TimelineElem.END c 0 (clk (r + 44)%nat) in
  exists exported w',
    QuickStart.func_c w
    = Some ((wrap64 (TimelineElem.getEpochUs_of (clk (r + 43)%nat)
                     - TimelineElem.getEpochUs b),
             TimelineDump.toString exported), w')
    /\ length (Timeline.getElems exported) = 44%nat
    /\ head (Timeline.getElems exported) = Some b
    /\ last (Timeline.getElems exported) = Some e
    /\ Timeline.getDepth exported = 0
    /\ Chain.idle w'
    /\ Timeline.eventIdCounter (Run.timelineRef w') = wrap64 (c + 22)
    /\ Run.clock_reads w' = (r + 45)%nat.
Proof.
  intros Hidle c clk r b e.
  pose proof (idle_world w Hidle) as Hw. fold c clk r in Hw.
  assert (Hc : is_uint64 c) by apply Hidle.
  unfold QuickStart.func_c.
  destruct (new_idle "func_c" w Hidle) as (w1 & Hnew & Hin1). fold c in Hnew, Hin1.
  assert (H1 : Scoped.running b clk r 1 1 1 w1).
  { split; [exact Hin1 |].
    rewrite Hw, new_eq in Hnew. injection Hnew as <-.
    cbn [Run.timelineRef Run.clock Run.clock_reads Timeline.elems
         Timeline.lastDepth Timeline.eventIdCounter app head].
    split; [reflexivity |]. split; [reflexivity | lia]. }
  rewrite (run_bind _ _ _ _ _ Hnew). cbn beta.
  destruct (loop_unit QuickStart.func_b 7 14 3 func_b_unit
              b clk r 1%nat 1%nat 1 w1 H1)
    as (w2 & Hloop & (Hin2 & Hb2 & Hclk2 & Hr2));
    [lia | simpl; lia | exact Hc | unfold is_uint32; lia |].
  rewrite (run_bind _ _ _ _ _ Hloop). cbn beta.
  destruct (Timeline.elems (Run.timelineRef w2)) as [| te rest] eqn:Hel;
    [discriminate Hb2 |].
  injection Hb2 as ->.
  erewrite run_bind by (apply (getElapsedUs_eq _ w2 b rest); exact Hel).
  cbn beta.
  erewrite run_bind by apply exportTimeline_eq.
  cbn beta iota zeta.
  cbn [Run.timelineRef Run.clock Run.clock_reads TimelineMonitor.myId
       TimelineMonitor.myName].
  rewrite Hel. cbn [app head fmap option_fmap option_map].
  rewrite bool_decide_eq_true_2 by reflexivity.
  erewrite run_bind by (apply destroy_done; reflexivity).
  destruct Hin2 as (_ & Hn2 & Hc2 & Hd2). rewrite Hel in Hn2.
  rewrite Hd2, Hc2, Hclk2, Hr2.
  eexists _, _. split; [reflexivity |].
  unfold Timeline.getElems, Timeline.getDepth, Chain.idle.
  cbn [Timeline.elems Timeline.lastDepth Timeline.eventIdCounter
       Run.timelineRef Run.clock_reads].
  split; [cbn [length] in *; rewrite length_app; cbn [length]; lia |].
  split; [reflexivity |].
  split.
  { rewrite app_comm_cons, last_snoc. unfold e. do 2 f_equal.
    f_equal. lia. }
  split; [reflexivity |].
  split; [repeat split; apply wrap64_range |].
  split; [f_equal; simpl; lia | lia].
Qed.

Lemma quick_start_func_c_witness :
  let w := Run.mkWorld (Timeline.make 0 [] 0) (fun n => Z.of_nat n * 2000) 0 in
  let b := TimelineElem.make "func_c" TimelineElem.BEGIN 0 0 0 in
  let e := TimelineElem.make "func_c" TimelineElem.END 0 0 88000 in
  exists exported w',
    QuickStart.func_c w = Some ((86, TimelineDump.toString exported), w')
    /\ length (Timeline.getElems exported) = 44%nat
    /\ head (Timeline.getElems exported) = Some b
    /\ last (Timeline.getElems exported) = Some e
    /\ Timeline.getDepth exported = 0
    /\ Chain.idle w'
    /\ Timeline.eventIdCounter (Run.timelineRef w') = 22
    /\ Run.clock_reads w' = 45%nat.
Proof.
  intros w b e.
  apply (quick_start_func_c w).
  unfold Chain.idle, is_uint64. simpl. repeat split; lia.
Defined.
